(** * Log sub-resources of the SDK: InvoiceLog, corporateCardLog, UtilityPaymentLog

    A shallow embedding of the three modules
    [sdk/invoice/log/log.js], [sdk/corporateCard/log/log.js] and
    [sdk/utilityPayment/log/log.js]: the [Log] constructors, the module-level
    [resource] descriptor and the exported operations [get], [query], [page]
    and [pdf].  JavaScript values are modelled by an inductive type, thrown
    exceptions (rejected promises) by an error sum, calls into
    [utils/rest.js] by a node of a small free monad. *)

From Stdlib Require Import String Ascii List ZArith Bool Lia DecimalString.
Import ListNotations.
Open Scope string_scope.
Open Scope Z_scope.
Open Scope list_scope.

Set Implicit Arguments.
Local Set Warnings "-register-all".

(** ** JavaScript values *)

(** A structured timestamp, as produced by the date checks. *)
Record timestamp := Timestamp {
  year : Z; month : Z; day : Z;
  hour : Z; minute : Z; second : Z; millisecond : Z
}.

(** The values the SDK handles.  Numbers are the integers (a [limit] is an
    integer); an object is the list of its own properties in insertion
    order. *)
Inductive value : Type :=
| VUndefined
| VNull
| VBool (b : bool)
| VNum (n : Z)
| VStr (s : string)
| VArr (items : list value)
| VObj (props : list (string * value))
| VDate (t : timestamp).

(** Errors that reach the caller.  [TypeError] is raised by the language
    itself (destructuring [null]); the others are named by the error
    taxonomy of the SDK. *)
Inductive error : Type :=
| TypeError
| ValidationError
| NotFound
| AuthError
| TransportError
| RateLimitError.

Inductive result (A : Type) : Type :=
| Ok (a : A)
| Err (e : error).
Arguments Ok {A} a.
Arguments Err {A} e.

Definition bind {A B : Type} (r : result A) (f : A -> result B) : result B :=
  match r with
  | Ok a => f a
  | Err e => Err e
  end.

Declare Scope js_scope.
Delimit Scope js_scope with js.
Notation "'let*' x ':=' r 'in' k" := (bind r (fun x => k))
  (at level 10, x name, r at level 100, k at level 200) : js_scope.
Open Scope js_scope.

Definition nullish (v : value) : bool :=
  match v with
  | VUndefined | VNull => true
  | _ => false
  end.

(** Own-property lookup in a property list; a missing key reads as
    [undefined]. *)
Fixpoint lookup (k : string) (props : list (string * value)) : value :=
  match props with
  | [] => VUndefined
  | (k', v) :: rest => if String.eqb k k' then v else lookup k rest
  end.

(** [v.k] for a value that is not [null] or [undefined].  None of the keys the
    SDK reads names a built-in property of a primitive or of an array, so
    these read as [undefined]. *)
Definition field (v : value) (k : string) : value :=
  match v with
  | VObj props => lookup k props
  | _ => VUndefined
  end.

(** [this.k = x]: overwrite an existing own property in place, otherwise
    append it. *)
Fixpoint assign (k : string) (x : value) (props : list (string * value))
  : list (string * value) :=
  match props with
  | [] => [(k, x)]
  | (k', v) :: rest =>
      if String.eqb k k' then (k', x) :: rest else (k', v) :: assign k x rest
  end.

Definition keys (props : list (string * value)) : list string :=
  map fst props.

(** The [i]-th actual argument of a call; a missing argument is
    [undefined]. *)
Definition arg (i : nat) (args : list value) : value :=
  nth i args VUndefined.

(** A parameter or pattern default [= d]: taken when the value is
    [undefined], and only then. *)
Definition default (d v : value) : value :=
  match v with
  | VUndefined => d
  | _ => v
  end.

(** An object pattern [{ a, b, ... }] binds from any value except [null] and
    [undefined], on which it throws a TypeError. *)
Definition destructure (v : value) : result value :=
  if nullish v then Err TypeError else Ok v.

(** ** Collaborators that are not part of these modules *)

(** [utils/check.js]: the two checks the constructors call.  Each takes any
    value and returns the normalised value or throws. *)
Class Check := {
  date : value -> result value;
  datetime : value -> result value
}.

(** The contract of a check on strings: a string is parsed to a structured
    timestamp, an unparseable one fails with ValidationError. *)
Definition parses_with (parse : string -> option timestamp)
    (check : value -> result value) : Prop :=
  forall s, check (VStr s) =
            match parse s with
            | Some t => Ok (VDate t)
            | None => Err ValidationError
            end.

(** Modelled from the spec: [utils/resource.js] (the base class [Resource])
    is missing from the sources.  The entity carries an [id] field and fields
    other than the timestamp are stored verbatim, so the base constructor is
    [this.id = id]. *)
Definition Resource (id : value) : list (string * value) :=
  assign "id" id [].

(** ** The gateway [utils/rest.js] as seen from the modules *)

(** A resource descriptor [{'class': ..., 'name': ...}].  The class is the
    constructor, applied to its actual arguments. *)
Record descriptor := Descriptor {
  class : list value -> result value;
  name : string
}.

Module rest.
(** The four entry points of the gateway with their actual arguments. *)
Inductive call : Type :=
| getId (resource : descriptor) (id user : value)
| getList (resource : descriptor) (query user : value)
| getPage (resource : descriptor) (query user : value)
| getPdf (resource : descriptor) (id options user : value).

Definition resource_of (c : call) : descriptor :=
  match c with
  | getId r _ _ | getList r _ _ | getPage r _ _ | getPdf r _ _ _ => r
  end.
End rest.

(** The body of an exported function: it returns, throws, reads the
    module-level binding [resource], changes it (by assigning the binding or
    a property of the object it holds), or awaits a gateway call whose
    answer (of type [R]) it continues with.  The modules contain no
    [try]/[catch], so a gateway failure ends the body. *)
Inductive prog (R A : Type) : Type :=
| Ret (a : A)
| Throw (e : error)
| ReadBinding (k : descriptor -> prog R A)
| WriteBinding (d : descriptor) (k : prog R A)
| Await (c : rest.call) (k : R -> prog R A).
Arguments Ret {R A} a.
Arguments Throw {R A} e.
Arguments ReadBinding {R A} k.
Arguments WriteBinding {R A} d k.
Arguments Await {R A} c k.

(** What a run leaves behind: what the caller receives, the final value of
    the module binding and the gateway calls made, in order. *)
Record run (A : Type) := Run {
  outcome : result A;
  binding : descriptor;
  calls : list rest.call
}.

Fixpoint exec {R A : Type} (gateway : rest.call -> result R)
    (resource : descriptor) (p : prog R A) : run A :=
  match p with
  | Ret a => Run (Ok a) resource []
  | Throw e => Run (Err e) resource []
  | ReadBinding k => exec gateway resource (k resource)
  | WriteBinding d k => exec gateway d k
  | Await c k =>
      match gateway c with
      | Ok r =>
          let after := exec gateway resource (k r) in
          Run (outcome after) (binding after) (c :: calls after)
      | Err e => Run (Err e) resource [c]
      end
  end.

(** Binding the parameters of a function whose options parameter is an
    object pattern with default [{}]. *)
Definition options {R A : Type} (v : value) (body : value -> prog R A)
  : prog R A :=
  match destructure (default (VObj []) v) with
  | Ok o => body o
  | Err e => Throw e
  end.

(** ** [sdk/invoice/log/log.js] *)

Module Invoice.
Section WithCheck.
Context {check : Check}.

(** [constructor({ created, type, errors, invoice, id })] *)
Definition Log (args : list value) : result value :=
  let* o := destructure (arg 0 args) in
  let created := field o "created" in
  let type := field o "type" in
  let errors := field o "errors" in
  let invoice := field o "invoice" in
  let id := field o "id" in
  let this := Resource id in
  let* checked := date created in
  let this := assign "created" checked this in
  let this := assign "type" type this in
  let this := assign "errors" errors this in
  let this := assign "invoice" invoice this in
  Ok (VObj this).

(** [let resource = {'class': exports.Log, 'name': 'InvoiceLog'}] *)
Definition resource : descriptor :=
  {| class := Log; name := "InvoiceLog" |}.

Context {R : Type}.

(** [async function (id, {user} = {})] *)
Definition get (args : list value) : prog R R :=
  let id := arg 0 args in
  options (arg 1 args) (fun o =>
    let user := field o "user" in
    ReadBinding (fun resource =>
      Await (rest.getId resource id user) Ret)).

(** [async function ({ limit, after, before, types, invoiceIds, user} = {})] *)
Definition query (args : list value) : prog R R :=
  options (arg 0 args) (fun o =>
    let limit := field o "limit" in
    let after := field o "after" in
    let before := field o "before" in
    let types := field o "types" in
    let invoiceIds := field o "invoiceIds" in
    let user := field o "user" in
    let query := VObj [
      ("limit", limit);
      ("after", after);
      ("before", before);
      ("types", types);
      ("invoiceIds", invoiceIds)
    ] in
    ReadBinding (fun resource =>
      Await (rest.getList resource query user) Ret)).

(** [async function ({ cursor, limit, after, before, types, invoiceIds, user } = {})] *)
Definition page (args : list value) : prog R R :=
  options (arg 0 args) (fun o =>
    let cursor := field o "cursor" in
    let limit := field o "limit" in
    let after := field o "after" in
    let before := field o "before" in
    let types := field o "types" in
    let invoiceIds := field o "invoiceIds" in
    let user := field o "user" in
    let query := VObj [
      ("cursor", cursor);
      ("limit", limit);
      ("after", after);
      ("before", before);
      ("types", types);
      ("invoiceIds", invoiceIds)
    ] in
    ReadBinding (fun resource =>
      Await (rest.getPage resource query user) Ret)).

(** [async function (id, {user} = {})] *)
Definition pdf (args : list value) : prog R R :=
  let id := arg 0 args in
  options (arg 1 args) (fun o =>
    let user := field o "user" in
    ReadBinding (fun resource =>
      Await (rest.getPdf resource id (VObj []) user) Ret)).
End WithCheck.
End Invoice.

(** ** [sdk/corporateCard/log/log.js] *)

Module CorporateCard.
Section WithCheck.
Context {check : Check}.

(** [constructor({ id, card, type, created })] *)
Definition Log (args : list value) : result value :=
  let* o := destructure (arg 0 args) in
  let id := field o "id" in
  let card := field o "card" in
  let type := field o "type" in
  let created := field o "created" in
  let this := Resource id in
  let this := assign "card" card this in
  let this := assign "type" type this in
  let* checked := datetime created in
  let this := assign "created" checked this in
  Ok (VObj this).

(** [let resource = {'class': exports.Log, 'name': 'corporateCardLog'}] *)
Definition resource : descriptor :=
  {| class := Log; name := "corporateCardLog" |}.

Context {R : Type}.

(** [async function (id, {user} = {})] *)
Definition get (args : list value) : prog R R :=
  let id := arg 0 args in
  options (arg 1 args) (fun o =>
    let user := field o "user" in
    ReadBinding (fun resource =>
      Await (rest.getId resource id user) Ret)).

(** [async function ({limit, cardIds, types, after, before, ids, user} = {})] *)
Definition query (args : list value) : prog R R :=
  options (arg 0 args) (fun o =>
    let limit := field o "limit" in
    let cardIds := field o "cardIds" in
    let types := field o "types" in
    let after := field o "after" in
    let before := field o "before" in
    let ids := field o "ids" in
    let user := field o "user" in
    let query := VObj [
      ("ids", ids);
      ("limit", limit);
      ("after", after);
      ("before", before);
      ("types", types);
      ("cardIds", cardIds)
    ] in
    ReadBinding (fun resource =>
      Await (rest.getList resource query user) Ret)).

(** [async function ({cursor, limit, after, before, types, cardIds, ids, user} = {})] *)
Definition page (args : list value) : prog R R :=
  options (arg 0 args) (fun o =>
    let cursor := field o "cursor" in
    let limit := field o "limit" in
    let after := field o "after" in
    let before := field o "before" in
    let types := field o "types" in
    let cardIds := field o "cardIds" in
    let ids := field o "ids" in
    let user := field o "user" in
    let query := VObj [
      ("cursor", cursor);
      ("limit", limit);
      ("after", after);
      ("before", before);
      ("types", types);
      ("cardIds", cardIds);
      ("ids", ids)
    ] in
    ReadBinding (fun resource =>
      Await (rest.getPage resource query user) Ret)).
End WithCheck.
End CorporateCard.

(** ** [sdk/utilityPayment/log/log.js] *)

Module UtilityPayment.
(** [constructor(created, type, errors, payment, id = null)]: positional
    parameters, and no check on [created] (the module does not import
    [utils/check.js]). *)
Definition Log (args : list value) : result value :=
  let created := arg 0 args in
  let type := arg 1 args in
  let errors := arg 2 args in
  let payment := arg 3 args in
  let id := default VNull (arg 4 args) in
  let this := Resource id in
  let this := assign "created" created this in
  let this := assign "type" type this in
  let this := assign "errors" errors this in
  let this := assign "payment" payment this in
  Ok (VObj this).

(** [let resource = {'class': exports.Log, 'name': 'UtilityPaymentLog'}] *)
Definition resource : descriptor :=
  {| class := Log; name := "UtilityPaymentLog" |}.

Section Operations.
Context {R : Type}.

(** [async function (id, {user} = {})] *)
Definition get (args : list value) : prog R R :=
  let id := arg 0 args in
  options (arg 1 args) (fun o =>
    let user := field o "user" in
    ReadBinding (fun resource =>
      Await (rest.getId resource id user) Ret)).

(** [async function ({ limit = null, after = null, before = null,
    types = null, paymentIds = null, user = null} = {})] *)
Definition query (args : list value) : prog R R :=
  options (arg 0 args) (fun o =>
    let limit := default VNull (field o "limit") in
    let after := default VNull (field o "after") in
    let before := default VNull (field o "before") in
    let types := default VNull (field o "types") in
    let paymentIds := default VNull (field o "paymentIds") in
    let user := default VNull (field o "user") in
    let query := VObj [
      ("limit", limit);
      ("after", after);
      ("before", before);
      ("types", types);
      ("paymentIds", paymentIds)
    ] in
    ReadBinding (fun resource =>
      Await (rest.getList resource query user) Ret)).

(** [async function ({ cursor = null, limit = null, after = null,
    before = null, types = null, paymentIds = null, user = null } = {})] *)
Definition page (args : list value) : prog R R :=
  options (arg 0 args) (fun o =>
    let cursor := default VNull (field o "cursor") in
    let limit := default VNull (field o "limit") in
    let after := default VNull (field o "after") in
    let before := default VNull (field o "before") in
    let types := default VNull (field o "types") in
    let paymentIds := default VNull (field o "paymentIds") in
    let user := default VNull (field o "user") in
    let query := VObj [
      ("cursor", cursor);
      ("limit", limit);
      ("after", after);
      ("before", before);
      ("types", types);
      ("paymentIds", paymentIds)
    ] in
    ReadBinding (fun resource =>
      Await (rest.getPage resource query user) Ret)).
End Operations.
End UtilityPayment.

(** ** The three resource kinds side by side *)

Inductive kind : Type := InvoiceLog | CorporateCardLog | UtilityPaymentLog.

Inductive operation : Type := Get | Query | Page | Pdf.

Section Kinds.
Context {check : Check}.

(** The initial (and only) value each module gives its [resource]
    binding. *)
Definition resource (k : kind) : descriptor :=
  match k with
  | InvoiceLog => Invoice.resource
  | CorporateCardLog => CorporateCard.resource
  | UtilityPaymentLog => UtilityPayment.resource
  end.

Context {R : Type}.

(** The function a module exports under a name; only the invoice module
    exports [pdf]. *)
Definition exported (k : kind) (op : operation)
  : option (list value -> prog R R) :=
  match k, op with
  | InvoiceLog, Get => Some Invoice.get
  | InvoiceLog, Query => Some Invoice.query
  | InvoiceLog, Page => Some Invoice.page
  | InvoiceLog, Pdf => Some Invoice.pdf
  | CorporateCardLog, Get => Some CorporateCard.get
  | CorporateCardLog, Query => Some CorporateCard.query
  | CorporateCardLog, Page => Some CorporateCard.page
  | CorporateCardLog, Pdf => None
  | UtilityPaymentLog, Get => Some UtilityPayment.get
  | UtilityPaymentLog, Query => Some UtilityPayment.query
  | UtilityPaymentLog, Page => Some UtilityPayment.page
  | UtilityPaymentLog, Pdf => None
  end.

(** Where the options object sits among the actual arguments. *)
Definition options_position (op : operation) : nat :=
  match op with
  | Get | Pdf => 1%nat
  | Query | Page => 0%nat
  end.

(** A use of a module over time: exported functions called one after the
    other, each starting from the binding the previous one left. *)
Fixpoint session (gateway : rest.call -> result R) (k : kind)
    (binding0 : descriptor) (todo : list (operation * list value))
  : descriptor * list rest.call :=
  match todo with
  | [] => (binding0, [])
  | (op, args) :: later =>
      match exported k op with
      | None => session gateway k binding0 later
      | Some f =>
          let r := exec gateway binding0 (f args) in
          let '(final, made) := session gateway k (binding r) later in
          (final, calls r ++ made)
      end
  end.
End Kinds.

(** A body can end in a locally raised error. *)
Fixpoint can_throw {R A : Type} (p : prog R A) : Prop :=
  match p with
  | Ret _ => False
  | Throw _ => True
  | ReadBinding k => exists d, can_throw (k d)
  | WriteBinding _ k => can_throw k
  | Await _ k => exists r, can_throw (k r)
  end.

(** A body that reads the module binding, awaits one gateway call and
    returns its answer. *)
Definition delegate {R : Type} (c : descriptor -> rest.call) : prog R R :=
  ReadBinding (fun resource => Await (c resource) Ret).

(** The filter object a gateway call carries, if it carries one. *)
Definition filter_of (c : rest.call) : option value :=
  match c with
  | rest.getList _ query _ | rest.getPage _ query _ => Some query
  | _ => None
  end.

(** Tactics for the case analysis over the exported functions. *)
Ltac unfold_exported :=
  cbv beta delta [Invoice.get Invoice.query Invoice.page Invoice.pdf
                  CorporateCard.get CorporateCard.query CorporateCard.page
                  UtilityPayment.get UtilityPayment.query
                  UtilityPayment.page].

Ltac by_cases_on_exported Hf :=
  match type of Hf with
  | exported ?k ?op = Some ?f =>
      destruct k, op; simpl in Hf; inversion Hf; subst f; clear Hf
  end.

(** ** What the exported functions read and send *)

(** The names an exported function binds from its options argument, in the
    order of its parameter pattern. *)
Definition reads (k : kind) (op : operation) : list string :=
  match op, k with
  | Get, _ | Pdf, _ => ["user"]
  | Query, InvoiceLog =>
      ["limit"; "after"; "before"; "types"; "invoiceIds"; "user"]
  | Query, CorporateCardLog =>
      ["limit"; "cardIds"; "types"; "after"; "before"; "ids"; "user"]
  | Query, UtilityPaymentLog =>
      ["limit"; "after"; "before"; "types"; "paymentIds"; "user"]
  | Page, InvoiceLog =>
      ["cursor"; "limit"; "after"; "before"; "types"; "invoiceIds"; "user"]
  | Page, CorporateCardLog =>
      ["cursor"; "limit"; "after"; "before"; "types"; "cardIds"; "ids";
       "user"]
  | Page, UtilityPaymentLog =>
      ["cursor"; "limit"; "after"; "before"; "types"; "paymentIds"; "user"]
  end.

(** The property names of the object literal [let query = {...}] of [query]
    and [page], in the order written; [get] and [pdf] build none. *)
Definition filter_keys (k : kind) (op : operation) : list string :=
  match op, k with
  | Get, _ | Pdf, _ => []
  | Query, InvoiceLog => ["limit"; "after"; "before"; "types"; "invoiceIds"]
  | Query, CorporateCardLog =>
      ["ids"; "limit"; "after"; "before"; "types"; "cardIds"]
  | Query, UtilityPaymentLog =>
      ["limit"; "after"; "before"; "types"; "paymentIds"]
  | Page, InvoiceLog =>
      ["cursor"; "limit"; "after"; "before"; "types"; "invoiceIds"]
  | Page, CorporateCardLog =>
      ["cursor"; "limit"; "after"; "before"; "types"; "cardIds"; "ids"]
  | Page, UtilityPaymentLog =>
      ["cursor"; "limit"; "after"; "before"; "types"; "paymentIds"]
  end.

(** The pattern default of a module: [= null] on every name in the
    utility-payment module's [query] and [page], none in the other two. *)
Definition defaulted (k : kind) (v : value) : value :=
  match k with
  | UtilityPaymentLog => default VNull v
  | InvoiceLog | CorporateCardLog => v
  end.

(** The [user] argument of a gateway call. *)
Definition user_of (c : rest.call) : value :=
  match c with
  | rest.getId _ _ user | rest.getList _ _ user | rest.getPage _ _ user
  | rest.getPdf _ _ _ user => user
  end.

(** The [id] argument of a gateway call that has one. *)
Definition id_of (c : rest.call) : option value :=
  match c with
  | rest.getId _ id _ | rest.getPdf _ id _ _ => Some id
  | rest.getList _ _ _ | rest.getPage _ _ _ => None
  end.

Definition is_object (v : value) : bool :=
  match v with
  | VObj _ => true
  | _ => false
  end.

(** ** The gateway, modelled from the specification *)

Module Gateway.
(** Modelled from the spec: the remote collection behind
    [utils/rest.js], which is missing from the sources.  A page request
    returns a list of raw records and either no cursor ([Last]) or a
    cursor behind which further pages follow ([More]), or it fails. *)
Inductive chain : Type :=
| Last (records : list value)
| More (records : list value) (cursor : string) (next : chain)
| Failed (e : error).

(** Modelled from the spec: the boundary the gateway consumes,
    [fetchById(resourceName, id, authContext)],
    [fetchPage(resourceName, filterObject+cursor, authContext)] and
    [fetchBinary(resourceName, id, authContext)]; [fetchPage] gives the
    page the request returns together with what its cursor leads to. *)
Record remote := Remote {
  fetchById : string -> value -> value -> result value;
  fetchPage : string -> value -> value -> chain;
  fetchBinary : string -> value -> value -> result string
}.

(** All records of a chain in order, and the failure it ends in, if any. *)
Fixpoint chain_records (c : chain) : list value * option error :=
  match c with
  | Last xs => (xs, None)
  | More xs _ next =>
      let '(ys, e) := chain_records next in (xs ++ ys, e)
  | Failed e => ([], Some e)
  end.

(** Modelled from the spec: a raw record is mapped to an entity by the
    class of the descriptor, applied to the record. *)
Definition entity (d : descriptor) (raw : value) : result value :=
  class d [raw].

Fixpoint entities (d : descriptor) (raws : list value)
  : result (list value) :=
  match raws with
  | [] => Ok []
  | raw :: rest =>
      let* e := entity d raw in
      let* es := entities d rest in
      Ok (e :: es)
  end.

(** Modelled from the spec: the maximum result count of a filter object,
    unbounded if absent. *)
Definition limit_of (query : value) : option nat :=
  match field query "limit" with
  | VNum n => Some (Z.to_nat n)
  | _ => None
  end.

(** Modelled from the spec: the lazy sequence [getList] produces.  It
    holds the records of the current page not yet yielded, what the next
    page request will return (if a cursor is left), how many entities may
    still be yielded, and counts the page requests made so far. *)
Record generator := Generator {
  source : descriptor;
  buffer : list value;
  pending : option chain;
  remaining : option nat;
  requests : nat
}.

Inductive step : Type :=
| Yield (e : value) (g : generator)
| Done
| Raised (e : error).

(** Request pages until one has a record: the first record, the rest of
    that page, what lies behind its cursor and the requests made. *)
Fixpoint refill (c : chain) (made : nat)
  : result (option (value * list value * option chain * nat)) :=
  match c with
  | Failed e => Err e
  | Last [] => Ok None
  | Last (x :: xs) => Ok (Some (x, xs, None, S made))
  | More [] _ next => refill next (S made)
  | More (x :: xs) _ next => Ok (Some (x, xs, Some next, S made))
  end.

Definition emit (g : generator) (raw : value) (rest : list value)
    (behind : option chain) (made : nat) : step :=
  match entity (source g) raw with
  | Ok e =>
      Yield e {| source := source g; buffer := rest; pending := behind;
                 remaining := option_map Nat.pred (remaining g);
                 requests := made |}
  | Err e => Raised e
  end.

(** Advancing the sequence by one entity: nothing once [limit] entities
    were yielded; otherwise the next buffered record, requesting further
    pages only when the buffer is empty. *)
Definition next (g : generator) : step :=
  match remaining g with
  | Some O => Done
  | _ =>
      match buffer g with
      | raw :: rest => emit g raw rest (pending g) (requests g)
      | [] =>
          match pending g with
          | None => Done
          | Some c =>
              match refill c (requests g) with
              | Err e => Raised e
              | Ok None => Done
              | Ok (Some (raw, rest, behind, made)) =>
                  emit g raw rest behind made
              end
          end
      end
  end.

(** Consuming the sequence to its end with at most [fuel] advances:
    the entities yielded and the error it ended in, if any. *)
Fixpoint consume (fuel : nat) (g : generator)
  : option (list value * option error) :=
  match fuel with
  | O => None
  | S fuel' =>
      match next g with
      | Done => Some ([], None)
      | Raised e => Some ([], Some e)
      | Yield e g' =>
          match consume fuel' g' with
          | Some (es, ending) => Some (e :: es, ending)
          | None => None
          end
      end
  end.

(** The answers of the four entry points. *)
Inductive answer : Type :=
| Entity (e : value)
| Sequence (g : generator)
| Paged (es : list value) (cursor : value)
| Binary (content : string).

Section Handlers.
Variable server : remote.

(** Modelled from the spec: fetch-by-id, the raw response mapped to an
    entity; failures of the remote are passed on. *)
Definition getId (d : descriptor) (id user : value) : result answer :=
  let* raw := fetchById server (name d) id user in
  let* e := entity d raw in
  Ok (Entity e).

(** Modelled from the spec: a lazy sequence; no request is made before
    the sequence is advanced. *)
Definition getList (d : descriptor) (query user : value)
  : result answer :=
  Ok (Sequence {| source := d; buffer := [];
                  pending := Some (fetchPage server (name d) query user);
                  remaining := limit_of query; requests := 0 |}).

(** Modelled from the spec: one page request; its records mapped to
    entities, with the cursor of the page or [null]. *)
Definition getPage (d : descriptor) (query user : value)
  : result answer :=
  match fetchPage server (name d) query user with
  | Failed e => Err e
  | Last raws =>
      let* es := entities d raws in Ok (Paged es VNull)
  | More raws cursor _ =>
      let* es := entities d raws in Ok (Paged es (VStr cursor))
  end.

(** Modelled from the spec: the raw binary content of the document. *)
Definition getPdf (d : descriptor) (id user : value) : result answer :=
  let* content := fetchBinary server (name d) id user in
  Ok (Binary content).

Definition handle (c : rest.call) : result answer :=
  match c with
  | rest.getId d id user => getId d id user
  | rest.getList d query user => getList d query user
  | rest.getPage d query user => getPage d query user
  | rest.getPdf d id _ user => getPdf d id user
  end.
End Handlers.

(** What a sequence will have yielded once consumed: the records ahead,
    cut at the limit, mapped until a record fails to map. *)
Fixpoint deliver (d : descriptor) (left : option nat)
    (raws : list value) (ending : option error)
  : list value * option error :=
  match left with
  | Some O => ([], None)
  | _ =>
      match raws with
      | [] => ([], ending)
      | raw :: rest =>
          match entity d raw with
          | Err e => ([], Some e)
          | Ok v =>
              let '(vs, e) :=
                deliver d (option_map Nat.pred left) rest ending in
              (v :: vs, e)
          end
      end
  end.

Definition behind (p : option chain) : list value * option error :=
  match p with
  | None => ([], None)
  | Some c => chain_records c
  end.

Definition ahead (g : generator) : list value :=
  buffer g ++ fst (behind (pending g)).

Definition contents (g : generator) : list value * option error :=
  deliver (source g) (remaining g) (ahead g) (snd (behind (pending g))).

(** Modelled from the spec: a page request returns at most 100
    records. *)
Definition page_bound (server : remote) : Prop :=
  forall name query user,
    match fetchPage server name query user with
    | Last raws | More raws _ _ => (length raws <= 100)%nat
    | Failed _ => True
    end.

End Gateway.

(** ** A concrete check module and a concrete remote *)

Module Sample.
(** Reading a fixed number of decimal digits. *)
Definition digit (c : ascii) : option Z :=
  let n := nat_of_ascii c in
  if ((48 <=? n)%nat && (n <=? 57)%nat)%bool
  then Some (Z.of_nat (n - 48)) else None.

Fixpoint digits (n : nat) (acc : Z) (cs : list ascii)
  : option (Z * list ascii) :=
  match n with
  | O => Some (acc, cs)
  | S n' =>
      match cs with
      | [] => None
      | c :: more =>
          match digit c with
          | Some d => digits n' (10 * acc + d) more
          | None => None
          end
      end
  end.

Definition expect (c : ascii) (cs : list ascii) : option (list ascii) :=
  match cs with
  | c' :: more => if Ascii.eqb c c' then Some more else None
  | [] => None
  end.

Definition within (lo hi x : Z) : bool := (lo <=? x) && (x <=? hi).

(** Modelled from the spec: a parser for the two formats the spec shows,
    ['2020-03-10'] and ['2020-03-10 10:30:00.000']; anything else is
    unparseable. *)
Definition parse (s : string) : option timestamp :=
  match digits 4 0 (list_ascii_of_string s) with
  | None => None
  | Some (y, cs) =>
  match expect "-" cs with
  | None => None
  | Some cs =>
  match digits 2 0 cs with
  | None => None
  | Some (mo, cs) =>
  match expect "-" cs with
  | None => None
  | Some cs =>
  match digits 2 0 cs with
  | None => None
  | Some (d, cs) =>
      if negb (within 1 12 mo && within 1 31 d) then None else
      match cs with
      | [] => Some (Timestamp y mo d 0 0 0 0)
      | _ =>
  match expect " " cs with
  | None => None
  | Some cs =>
  match digits 2 0 cs with
  | None => None
  | Some (h, cs) =>
  match expect ":" cs with
  | None => None
  | Some cs =>
  match digits 2 0 cs with
  | None => None
  | Some (mi, cs) =>
  match expect ":" cs with
  | None => None
  | Some cs =>
  match digits 2 0 cs with
  | None => None
  | Some (sec, cs) =>
  match expect "." cs with
  | None => None
  | Some cs =>
  match digits 3 0 cs with
  | Some (ms, []) =>
      if within 0 23 h && within 0 59 mi && within 0 59 sec
      then Some (Timestamp y mo d h mi sec ms) else None
  | _ => None
  end end end end end end end end
      end
  end end end end end.

(** Modelled from the spec: a check that parses a date or datetime string
    into a structured timestamp and fails with ValidationError on
    unparseable input. *)
Definition parsed (v : value) : result value :=
  match v with
  | VStr s =>
      match parse s with
      | Some t => Ok (VDate t)
      | None => Err ValidationError
      end
  | _ => Err ValidationError
  end.

Definition check : Check := {| date := parsed; datetime := parsed |}.

Definition same_string (a b : value) : bool :=
  match a, b with
  | VStr x, VStr y => String.eqb x y
  | _, _ => false
  end.

(** Modelled from the spec: the filter on event types, a record passes
    when its [type] is one of the allowed strings; no restriction when no
    set of types is given. *)
Definition admits (query raw : value) : bool :=
  match field query "types" with
  | VArr allowed => existsb (same_string (field raw "type")) allowed
  | _ => true
  end.

Definition page_size (query : value) : nat :=
  match field query "limit" with
  | VNum n => if within 1 100 n then Z.to_nat n else 100%nat
  | _ => 100%nat
  end.

(** A cursor is the offset of the next page, in decimal. *)
Definition cursor_of (offset : nat) : string :=
  DecimalString.NilEmpty.string_of_uint (Nat.to_uint offset).

Definition offset_of (cursor : value) : nat :=
  match cursor with
  | VStr s =>
      match DecimalString.NilEmpty.uint_of_string s with
      | Some u => Nat.of_uint u
      | None => 0%nat
      end
  | _ => 0%nat
  end.

Fixpoint pages (fuel size offset : nat) (matching : list value)
  : Gateway.chain :=
  let here := skipn offset matching in
  let records := firstn size here in
  match fuel with
  | O => Gateway.Last records
  | S fuel' =>
      if (length here <=? size)%nat then Gateway.Last records
      else Gateway.More records (cursor_of (offset + size))
                        (pages fuel' size (offset + size) matching)
  end.

(** Modelled from the spec: a remote that holds, per resource name, a
    finite collection of raw records in its own order; it serves them
    filtered by type in pages of at most 100, and answers NotFound for an
    id it does not hold. *)
Definition server (collection : string -> list value) : Gateway.remote :=
  {| Gateway.fetchById := fun name id _ =>
       match find (fun raw => same_string (field raw "id") id)
                  (collection name) with
       | Some raw => Ok raw
       | None => Err NotFound
       end;
     Gateway.fetchPage := fun name query _ =>
       let matching := filter (admits query) (collection name) in
       pages (length matching) (page_size query)
             (offset_of (field query "cursor")) matching;
     Gateway.fetchBinary := fun _ _ _ => Err NotFound |}.
End Sample.

(** * Properties *)

(** ** Constructors *)

Lemma destructure_object (v : value) :
  nullish v = false -> destructure v = Ok v.
Proof. unfold destructure. intros ->. reflexivity. Qed.

Lemma destructure_nullish (v : value) :
  nullish v = true -> destructure v = Err TypeError.
Proof. unfold destructure. intros ->. reflexivity. Qed.

Lemma lookup_other (k k' : string) (x : value) (props : list (string * value)) :
  k <> k' -> lookup k ((k', x) :: props) = lookup k props.
Proof.
  intros Hne. simpl. destruct (String.eqb_spec k k') as [Heq | _].
  - contradiction.
  - reflexivity.
Qed.

Section Constructors.
Context {check : Check}.

(** The invoice constructor on an argument that can be destructured. *)
Lemma Invoice_Log_fields (raw : value) :
  nullish raw = false ->
  Invoice.Log [raw] =
  let* checked := date (field raw "created") in
  Ok (VObj [("id", field raw "id"); ("created", checked);
            ("type", field raw "type"); ("errors", field raw "errors");
            ("invoice", field raw "invoice")]).
Proof.
  intros Hobj. unfold Invoice.Log, arg. simpl nth.
  rewrite (destructure_object _ Hobj). simpl.
  destruct (date (field raw "created")); reflexivity.
Qed.

(** The corporate-card constructor on an argument that can be
    destructured. *)
Lemma CorporateCard_Log_fields (raw : value) :
  nullish raw = false ->
  CorporateCard.Log [raw] =
  let* checked := datetime (field raw "created") in
  Ok (VObj [("id", field raw "id"); ("card", field raw "card");
            ("type", field raw "type"); ("created", checked)]).
Proof.
  intros Hobj. unfold CorporateCard.Log, arg. simpl nth.
  rewrite (destructure_object _ Hobj). simpl.
  destruct (datetime (field raw "created")); reflexivity.
Qed.

Lemma Invoice_Log_nullish (raw : value) :
  nullish raw = true -> Invoice.Log [raw] = Err TypeError.
Proof.
  intros Hn. unfold Invoice.Log, arg. simpl nth.
  rewrite (destructure_nullish _ Hn). reflexivity.
Qed.

Lemma CorporateCard_Log_nullish (raw : value) :
  nullish raw = true -> CorporateCard.Log [raw] = Err TypeError.
Proof.
  intros Hn. unfold CorporateCard.Log, arg. simpl nth.
  rewrite (destructure_nullish _ Hn). reflexivity.
Qed.
End Constructors.

(** The utility-payment constructor on any actual arguments. *)
Lemma UtilityPayment_Log_fields (args : list value) :
  UtilityPayment.Log args =
  Ok (VObj [("id", default VNull (arg 4 args)); ("created", arg 0 args);
            ("type", arg 1 args); ("errors", arg 2 args);
            ("payment", arg 3 args)]).
Proof. reflexivity. Qed.

(** C8: the UtilityPayment Log constructor binds its five parameters by
    position (created, type, errors, payment, id): the object it builds
    holds the actual arguments in that order, an omitted (or undefined) id
    is stored as null, and a record passed as the only argument is stored
    whole as [created] instead of being taken apart; the other two
    constructors read their fields out of their single argument. *)
Theorem UtilityPayment_Log_positional :
  (forall created type errors payment id : value,
     UtilityPayment.Log [created; type; errors; payment; id] =
     Ok (VObj [("id", default VNull id); ("created", created);
               ("type", type); ("errors", errors); ("payment", payment)]))
  /\ (forall created type errors payment : value,
        UtilityPayment.Log [created; type; errors; payment] =
        Ok (VObj [("id", VNull); ("created", created); ("type", type);
                  ("errors", errors); ("payment", payment)]))
  /\ (forall props : list (string * value),
        UtilityPayment.Log [VObj props] =
        Ok (VObj [("id", VNull); ("created", VObj props);
                  ("type", VUndefined); ("errors", VUndefined);
                  ("payment", VUndefined)]))
  /\ (forall (check : Check) (props : list (string * value)),
        Invoice.Log [VObj props] =
        let* checked := date (lookup "created" props) in
        Ok (VObj [("id", lookup "id" props); ("created", checked);
                  ("type", lookup "type" props);
                  ("errors", lookup "errors" props);
                  ("invoice", lookup "invoice" props)]))
  /\ (forall (check : Check) (props : list (string * value)),
        CorporateCard.Log [VObj props] =
        let* checked := datetime (lookup "created" props) in
        Ok (VObj [("id", lookup "id" props); ("card", lookup "card" props);
                  ("type", lookup "type" props); ("created", checked)])).
Proof.
  split; [ | split; [ | split; [ | split]]].
  - intros. apply UtilityPayment_Log_fields.
  - intros. apply UtilityPayment_Log_fields.
  - intros. apply UtilityPayment_Log_fields.
  - intros check props. apply (Invoice_Log_fields (VObj props)). reflexivity.
  - intros check props.
    apply (CorporateCard_Log_fields (VObj props)). reflexivity.
Qed.

(** C9: whatever record a corporateCard Log is constructed from, the object
    holds exactly the own fields id, card, type and created, in that order;
    [errors], like any other key, reads as undefined on it, whatever the
    input record held under that key. *)
Theorem CorporateCard_Log_drops_other_fields
    (check : Check) (raw obj : value) :
  CorporateCard.Log [raw] = Ok obj ->
  (exists props, obj = VObj props
                 /\ keys props = ["id"; "card"; "type"; "created"]
                 /\ lookup "id" props = field raw "id"
                 /\ lookup "card" props = field raw "card"
                 /\ lookup "type" props = field raw "type")
  /\ field obj "errors" = VUndefined
  /\ (forall k, ~ In k ["id"; "card"; "type"; "created"] ->
                field obj k = VUndefined).
Proof.
  intros Hbuilt.
  destruct (nullish raw) eqn:Hraw.
  - rewrite (CorporateCard_Log_nullish _ Hraw) in Hbuilt. discriminate.
  - rewrite (CorporateCard_Log_fields _ Hraw) in Hbuilt.
    destruct (datetime (field raw "created")) as [checked | e];
      simpl in Hbuilt; [ | discriminate].
    injection Hbuilt as <-.
    split; [ | split].
    + eexists. split; [reflexivity | ]. repeat split.
    + reflexivity.
    + intros k Hk. unfold field.
      rewrite !lookup_other; [reflexivity | | | | ];
        intros ->; apply Hk; simpl; auto.
Qed.

(** A record with an [errors] entry and an extra field goes in; neither
    can be read from the object. *)
Lemma CorporateCard_Log_drops_other_fields_witness :
  let raw := VObj [("id", VStr "7"); ("card", VNull);
                   ("type", VStr "blocked");
                   ("created", VStr "2020-03-10 10:30:00.000");
                   ("errors", VArr [VStr "declined"]);
                   ("note", VStr "x")] in
  exists obj,
    @CorporateCard.Log Sample.check [raw] = Ok obj
    /\ field obj "errors" = VUndefined
    /\ field obj "note" = VUndefined.
Proof.
  intro raw. eexists. split; [reflexivity | ].
  destruct (@CorporateCard_Log_drops_other_fields Sample.check raw _ eq_refl)
    as (_ & Herrors & Hother).
  split.
  - exact Herrors.
  - apply Hother. simpl. intros [H | [H | [H | [H | []]]]]; discriminate H.
Defined.

(** The concrete checks satisfy the contract of a check on strings. *)
Lemma Sample_date_parses : parses_with Sample.parse (@date Sample.check).
Proof. intro s. reflexivity. Qed.

Lemma Sample_datetime_parses :
  parses_with Sample.parse (@datetime Sample.check).
Proof. intro s. reflexivity. Qed.

(** Every exported function binds its options through [options]; with an
    options argument other than null nothing is thrown locally. *)
Lemma options_bound {R A : Type} (v : value) (body : value -> prog R A) :
  v <> VNull -> options v body = body (default (VObj []) v).
Proof.
  intros Hv. unfold options, destructure.
  destruct v; try reflexivity. contradiction.
Qed.

Lemma options_null {R A : Type} (body : value -> prog R A) :
  options VNull body = Throw TypeError.
Proof. reflexivity. Qed.

Lemma exported_no_local_error {check : Check} {R : Type}
    (k : kind) (op : operation) (f : list value -> prog R R)
    (args : list value) :
  exported k op = Some f ->
  arg (options_position op) args <> VNull ->
  ~ can_throw (f args).
Proof.
  intros Hf Hopts.
  by_cases_on_exported Hf; simpl in Hopts; unfold_exported;
    rewrite (options_bound _ Hopts); simpl;
    intros (d & r & []).
Qed.

Lemma exported_null_options {check : Check} {R : Type}
    (k : kind) (op : operation) (f : list value -> prog R R)
    (args : list value) :
  exported k op = Some f ->
  arg (options_position op) args = VNull ->
  f args = Throw TypeError.
Proof.
  intros Hf Hopts.
  by_cases_on_exported Hf; simpl in Hopts; unfold_exported;
    rewrite Hopts; reflexivity.
Qed.

Section Validation.
Context {check : Check}.
Variables parse_date parse_datetime : string -> option timestamp.
Hypothesis date_parses : parses_with parse_date date.
Hypothesis datetime_parses : parses_with parse_datetime datetime.

(** C1 (amended): an InvoiceLog or corporateCardLog constructed from a raw
    record whose [created] is a string holds the parsed timestamp, and the
    construction raises ValidationError exactly when the string is
    unparseable and raises nothing else.  The UtilityPaymentLog
    constructor parses nothing: it never raises and holds its first
    argument as [created].  An exported operation raises nothing locally
    unless its options argument is null, and then it is a TypeError. *)
Theorem construction_validates_created :
  (forall (raw : value) (s : string),
      nullish raw = false -> field raw "created" = VStr s ->
      (Invoice.Log [raw] = Err ValidationError <-> parse_date s = None)
      /\ (forall e, Invoice.Log [raw] = Err e -> e = ValidationError)
      /\ (forall t, parse_date s = Some t ->
            exists obj, Invoice.Log [raw] = Ok obj
                        /\ field obj "created" = VDate t))
  /\ (forall (raw : value) (s : string),
        nullish raw = false -> field raw "created" = VStr s ->
        (CorporateCard.Log [raw] = Err ValidationError
         <-> parse_datetime s = None)
        /\ (forall e, CorporateCard.Log [raw] = Err e ->
                      e = ValidationError)
        /\ (forall t, parse_datetime s = Some t ->
              exists obj, CorporateCard.Log [raw] = Ok obj
                          /\ field obj "created" = VDate t))
  /\ (forall args : list value,
        exists obj, UtilityPayment.Log args = Ok obj
                    /\ field obj "created" = arg 0 args)
  /\ (forall (R : Type) (k : kind) (op : operation)
             (f : list value -> prog R R) (args : list value),
        exported k op = Some f ->
        (arg (options_position op) args <> VNull -> ~ can_throw (f args))
        /\ (arg (options_position op) args = VNull ->
            f args = Throw TypeError)).
Proof.
  split; [ | split; [ | split]].
  - intros raw s Hraw Hcreated.
    rewrite (Invoice_Log_fields _ Hraw), Hcreated.
    rewrite (date_parses s).
    destruct (parse_date s) as [t | ]; simpl.
    + split; [ | split].
      * split; discriminate.
      * discriminate.
      * intros t' [= <-]. eexists. split; reflexivity.
    + split; [ | split].
      * split; reflexivity.
      * intros e [= <-]. reflexivity.
      * discriminate.
  - intros raw s Hraw Hcreated.
    rewrite (CorporateCard_Log_fields _ Hraw), Hcreated.
    rewrite (datetime_parses s).
    destruct (parse_datetime s) as [t | ]; simpl.
    + split; [ | split].
      * split; discriminate.
      * discriminate.
      * intros t' [= <-]. eexists. split; reflexivity.
    + split; [ | split].
      * split; reflexivity.
      * intros e [= <-]. reflexivity.
      * discriminate.
  - intros args. eexists. split; [apply UtilityPayment_Log_fields | ].
    reflexivity.
  - intros R k op f args Hf. split.
    + intros Hopts. eapply exported_no_local_error; eassumption.
    + intros Hopts. eapply exported_null_options; eassumption.
Qed.

(** C2 (amended): for a raw record whose [created] string parses, the
    InvoiceLog and the corporateCardLog built from it hold the record's
    values under their own field names and the parsed timestamp under
    [created]; the UtilityPaymentLog built from positional arguments holds
    each argument as it was passed, [created] included. *)
Theorem construction_round_trip :
  (forall (raw : value) (s : string) (t : timestamp),
      nullish raw = false -> field raw "created" = VStr s ->
      parse_date s = Some t ->
      Invoice.Log [raw] =
      Ok (VObj [("id", field raw "id"); ("created", VDate t);
                ("type", field raw "type");
                ("errors", field raw "errors");
                ("invoice", field raw "invoice")]))
  /\ (forall (raw : value) (s : string) (t : timestamp),
        nullish raw = false -> field raw "created" = VStr s ->
        parse_datetime s = Some t ->
        CorporateCard.Log [raw] =
        Ok (VObj [("id", field raw "id"); ("card", field raw "card");
                  ("type", field raw "type"); ("created", VDate t)]))
  /\ (forall created type errors payment id : value,
        id <> VUndefined ->
        UtilityPayment.Log [created; type; errors; payment; id] =
        Ok (VObj [("id", id); ("created", created); ("type", type);
                  ("errors", errors); ("payment", payment)])).
Proof.
  split; [ | split].
  - intros raw s t Hraw Hcreated Hparse.
    rewrite (Invoice_Log_fields _ Hraw), Hcreated, date_parses, Hparse.
    reflexivity.
  - intros raw s t Hraw Hcreated Hparse.
    rewrite (CorporateCard_Log_fields _ Hraw), Hcreated, datetime_parses,
      Hparse.
    reflexivity.
  - intros created type errors payment id Hid.
    rewrite UtilityPayment_Log_fields. simpl.
    destruct id; try reflexivity. contradiction.
Qed.
End Validation.

(** C1, as stated, fails: the UtilityPaymentLog constructor is given an
    unparseable [created] string, in positional form and inside a record,
    and raises nothing, holding the string (or the record) unparsed; and
    [get] with a null options argument raises a TypeError locally. *)
Lemma UtilityPayment_Log_accepts_unparseable :
  Sample.parse "not a date" = None
  /\ UtilityPayment.Log [VStr "not a date"; VStr "success"; VArr [];
                         VNull; VStr "1"]
     = Ok (VObj [("id", VStr "1"); ("created", VStr "not a date");
                 ("type", VStr "success"); ("errors", VArr []);
                 ("payment", VNull)])
  /\ UtilityPayment.Log [VObj [("id", VStr "1");
                               ("created", VStr "not a date")]]
     <> Err ValidationError
  /\ outcome (exec (fun _ => Ok VNull) UtilityPayment.resource
                   (UtilityPayment.get [VStr "1"; VNull]))
     = Err TypeError.
Proof.
  split; [reflexivity | ].
  split; [reflexivity | ].
  split; [discriminate | reflexivity].
Qed.

Lemma construction_validates_created_witness :
  let raw := VObj [("id", VStr "1"); ("type", VStr "paid");
                   ("created", VStr "2020-13-40")] in
  (@Invoice.Log Sample.check [raw] = Err ValidationError
   <-> Sample.parse "2020-13-40" = None)
  /\ (@CorporateCard.Log Sample.check [raw] = Err ValidationError
      <-> Sample.parse "2020-13-40" = None)
  /\ ~ can_throw (@Invoice.query value [VObj [("limit", VNum 5)]]).
Proof.
  intro raw.
  destruct (@construction_validates_created Sample.check
              Sample.parse Sample.parse
              Sample_date_parses Sample_datetime_parses)
    as (Hinvoice & Hcard & _ & Hops).
  split; [ | split].
  - apply (Hinvoice raw "2020-13-40" eq_refl eq_refl).
  - apply (Hcard raw "2020-13-40" eq_refl eq_refl).
  - apply (Hops value InvoiceLog Query _ [VObj [("limit", VNum 5)]] eq_refl).
    simpl. discriminate.
Defined.

(** C2, as stated, fails: the UtilityPaymentLog built from a parseable
    [created] string holds the string itself, not the timestamp it parses
    to; built from the record as its only argument, it does not even hold
    the record's [type]. *)
Lemma UtilityPayment_Log_created_unparsed :
  let created := VStr "2020-03-10 10:30:00.000" in
  let parsed := VDate (Timestamp 2020 3 10 10 30 0 0) in
  Sample.parsed created = Ok parsed
  /\ (exists obj,
        UtilityPayment.Log [created; VStr "success"; VArr []; VNull;
                            VStr "1"] = Ok obj
        /\ field obj "created" = created
        /\ field obj "created" <> parsed)
  /\ (exists obj,
        UtilityPayment.Log [VObj [("id", VStr "1"); ("created", created);
                                  ("type", VStr "success")]] = Ok obj
        /\ field obj "type" = VUndefined
        /\ field obj "created" <> parsed).
Proof.
  intros created parsed.
  split; [reflexivity | split].
  - eexists. split; [reflexivity | ]. split; [reflexivity | discriminate].
  - eexists. split; [reflexivity | ]. split; [reflexivity | discriminate].
Qed.

Lemma construction_round_trip_witness :
  let raw := VObj [("id", VStr "1"); ("type", VStr "paid");
                   ("created", VStr "2020-03-10 10:30:00.000");
                   ("errors", VArr []); ("invoice", VNull)] in
  @Invoice.Log Sample.check [raw] =
  Ok (VObj [("id", VStr "1");
            ("created", VDate (Timestamp 2020 3 10 10 30 0 0));
            ("type", VStr "paid"); ("errors", VArr []);
            ("invoice", VNull)])
  /\ UtilityPayment.Log [VStr "2020-03-10"; VStr "success"; VArr [];
                         VNull; VStr "1"] =
     Ok (VObj [("id", VStr "1"); ("created", VStr "2020-03-10");
               ("type", VStr "success"); ("errors", VArr []);
               ("payment", VNull)]).
Proof.
  intro raw.
  destruct (@construction_round_trip Sample.check
              Sample.parse Sample.parse
              Sample_date_parses Sample_datetime_parses)
    as (Hinvoice & _ & Hpayment).
  split.
  - apply (Hinvoice raw "2020-03-10 10:30:00.000"
                    (Timestamp 2020 3 10 10 30 0 0) eq_refl eq_refl eq_refl).
  - apply Hpayment. discriminate.
Defined.

(** ** Operations *)

Lemma exec_delegate {R : Type} (gateway : rest.call -> result R)
    (binding0 : descriptor) (c : descriptor -> rest.call) :
  exec gateway binding0 (delegate c) =
  Run (gateway (c binding0)) binding0 [c binding0].
Proof.
  unfold delegate. simpl. destruct (gateway (c binding0)); reflexivity.
Qed.

(** With an options argument other than null, every exported function is
    one delegation, and the call carries the binding it read. *)
Lemma exported_delegates {check : Check} {R : Type}
    (k : kind) (op : operation) (f : list value -> prog R R)
    (args : list value) :
  exported k op = Some f ->
  arg (options_position op) args <> VNull ->
  exists c, f args = delegate c /\ forall d, rest.resource_of (c d) = d.
Proof.
  intros Hf Hopts.
  by_cases_on_exported Hf; simpl in Hopts; unfold_exported;
    rewrite (options_bound _ Hopts);
    (eexists (fun d => _); split; [reflexivity | reflexivity]).
Qed.

(** [get] and [pdf] in full. *)
Lemma get_delegates {check : Check} {R : Type}
    (k : kind) (f : list value -> prog R R) (args : list value) :
  exported k Get = Some f ->
  arg 1 args <> VNull ->
  f args =
  delegate (fun d => rest.getId d (arg 0 args)
                       (field (default (VObj []) (arg 1 args)) "user")).
Proof.
  intros Hf Hopts.
  destruct k; simpl in Hf; inversion Hf; subst f; clear Hf; unfold_exported;
    rewrite (options_bound _ Hopts); reflexivity.
Qed.

(** C3: for every resource kind, id and gateway, [get(id, options)] makes
    the one call [rest.getId(resource, id, user)] with the module's
    descriptor (its Log class and name) and hands the caller exactly what
    the gateway answers: its result, or its error unchanged; when the
    gateway answers NotFound the caller gets NotFound and no value. *)
Theorem get_returns_gateway_answer
    (check : Check) (R : Type) (gateway : rest.call -> result R)
    (k : kind) (f : list value -> prog R R) (id opts : value) :
  exported k Get = Some f ->
  opts <> VNull ->
  let user := field (default (VObj []) opts) "user" in
  let c := rest.getId (resource k) id user in
  let r := exec gateway (resource k) (f [id; opts]) in
  calls r = [c]
  /\ outcome r = gateway c
  /\ (forall e, gateway c = Err e -> outcome r = Err e)
  /\ (gateway c = Err NotFound ->
      outcome r = Err NotFound /\ forall v, outcome r <> Ok v).
Proof.
  intros Hf Hopts. cbv zeta.
  rewrite (get_delegates k [id; opts] Hf Hopts), exec_delegate.
  cbn [outcome calls arg nth].
  set (c := rest.getId _ _ _).
  split; [reflexivity | ]. split; [reflexivity | ].
  split; [auto | ].
  intros Hmissing. rewrite Hmissing. split; [reflexivity | discriminate].
Qed.

Lemma get_returns_gateway_answer_witness :
  let gateway (c : rest.call) : result value :=
    match c with
    | rest.getId _ (VStr "5656565656565656") _ => Ok (VStr "found")
    | _ => Err NotFound
    end in
  outcome (exec gateway (@resource Sample.check InvoiceLog)
                (Invoice.get [VStr "nonexistent-id"; VUndefined]))
  = Err NotFound
  /\ outcome (exec gateway (@resource Sample.check InvoiceLog)
                   (Invoice.get [VStr "5656565656565656";
                                 VObj [("user", VStr "project")]]))
     = Ok (VStr "found").
Proof.
  intro gateway. split.
  - apply (@get_returns_gateway_answer Sample.check value gateway InvoiceLog
             Invoice.get (VStr "nonexistent-id") VUndefined eq_refl).
    + discriminate.
    + reflexivity.
  - destruct (@get_returns_gateway_answer Sample.check value gateway
                InvoiceLog Invoice.get (VStr "5656565656565656")
                (VObj [("user", VStr "project")]) eq_refl)
      as (_ & Hanswer & _).
    + discriminate.
    + exact Hanswer.
Defined.

(** Over the gateway as the specification describes it, [get] returns the
    raw record of that id mapped through the module's Log class, or the
    failure of the remote. *)
Lemma get_maps_record_to_Log {check : Check}
    (server : Gateway.remote) (k : kind)
    (f : list value -> prog Gateway.answer Gateway.answer)
    (id opts : value) :
  exported k Get = Some f ->
  opts <> VNull ->
  outcome (exec (Gateway.handle server) (resource k) (f [id; opts])) =
  let* raw := Gateway.fetchById server (name (resource k)) id
                (field (default (VObj []) opts) "user") in
  let* e := class (resource k) [raw] in
  Ok (Gateway.Entity e).
Proof.
  intros Hf Hopts.
  rewrite (get_delegates k [id; opts] Hf Hopts), exec_delegate.
  reflexivity.
Qed.

(** In the utility-payment module the pattern defaults turn an omitted
    filter into null: setting an omitted filter field (or [user]) to null
    changes nothing in what [query] and [page] do. *)
Lemma UtilityPayment_null_as_omitted {R : Type}
    (key : string) (props : list (string * value)) :
  lookup key props = VUndefined ->
  @UtilityPayment.query R [VObj ((key, VNull) :: props)] =
  UtilityPayment.query [VObj props]
  /\ @UtilityPayment.page R [VObj ((key, VNull) :: props)] =
     UtilityPayment.page [VObj props].
Proof.
  intros Homitted.
  assert (Hsame : forall k,
             default VNull (lookup k ((key, VNull) :: props)) =
             default VNull (lookup k props)).
  { intros k. simpl. destruct (String.eqb_spec k key) as [-> | _].
    - rewrite Homitted. reflexivity.
    - reflexivity. }
  unfold UtilityPayment.query, UtilityPayment.page, options, arg, field.
  cbn [nth default destructure nullish].
  rewrite !Hsame. split; reflexivity.
Qed.

(** C7 fails on the code: in the invoice and corporate-card modules, which
    declare no pattern defaults, [query] and [page] pass an omitted filter
    field to the gateway as undefined and an explicit null as null, so the
    two filter objects differ; here for [limit]. *)
Theorem omitted_filter_is_not_null
    (R : Type) (gateway : rest.call -> result R) (d : descriptor) :
  let omitted := [VObj []] in
  let explicit := [VObj [("limit", VNull)]] in
  map filter_of (calls (exec gateway d (Invoice.query omitted)))
  = [Some (VObj [("limit", VUndefined); ("after", VUndefined);
                 ("before", VUndefined); ("types", VUndefined);
                 ("invoiceIds", VUndefined)])]
  /\ map filter_of (calls (exec gateway d (Invoice.query explicit)))
     = [Some (VObj [("limit", VNull); ("after", VUndefined);
                    ("before", VUndefined); ("types", VUndefined);
                    ("invoiceIds", VUndefined)])]
  /\ map filter_of (calls (exec gateway d (Invoice.page omitted)))
     <> map filter_of (calls (exec gateway d (Invoice.page explicit)))
  /\ map filter_of (calls (exec gateway d (CorporateCard.query omitted)))
     <> map filter_of (calls (exec gateway d (CorporateCard.query explicit)))
  /\ map filter_of (calls (exec gateway d (CorporateCard.page omitted)))
     <> map filter_of (calls (exec gateway d (CorporateCard.page explicit)))
  /\ map filter_of (calls (exec gateway d (UtilityPayment.query omitted)))
     = map filter_of (calls (exec gateway d (UtilityPayment.query explicit))).
Proof.
  cbv zeta.
  change (@Invoice.query R [VObj []]) with
    (@delegate R (fun r => rest.getList r
       (VObj [("limit", VUndefined); ("after", VUndefined);
              ("before", VUndefined); ("types", VUndefined);
              ("invoiceIds", VUndefined)]) VUndefined)).
  change (@Invoice.query R [VObj [("limit", VNull)]]) with
    (@delegate R (fun r => rest.getList r
       (VObj [("limit", VNull); ("after", VUndefined);
              ("before", VUndefined); ("types", VUndefined);
              ("invoiceIds", VUndefined)]) VUndefined)).
  change (@Invoice.page R [VObj []]) with
    (@delegate R (fun r => rest.getPage r
       (VObj [("cursor", VUndefined); ("limit", VUndefined);
              ("after", VUndefined); ("before", VUndefined);
              ("types", VUndefined); ("invoiceIds", VUndefined)])
       VUndefined)).
  change (@Invoice.page R [VObj [("limit", VNull)]]) with
    (@delegate R (fun r => rest.getPage r
       (VObj [("cursor", VUndefined); ("limit", VNull);
              ("after", VUndefined); ("before", VUndefined);
              ("types", VUndefined); ("invoiceIds", VUndefined)])
       VUndefined)).
  change (@CorporateCard.query R [VObj []]) with
    (@delegate R (fun r => rest.getList r
       (VObj [("ids", VUndefined); ("limit", VUndefined);
              ("after", VUndefined); ("before", VUndefined);
              ("types", VUndefined); ("cardIds", VUndefined)])
       VUndefined)).
  change (@CorporateCard.query R [VObj [("limit", VNull)]]) with
    (@delegate R (fun r => rest.getList r
       (VObj [("ids", VUndefined); ("limit", VNull);
              ("after", VUndefined); ("before", VUndefined);
              ("types", VUndefined); ("cardIds", VUndefined)])
       VUndefined)).
  change (@CorporateCard.page R [VObj []]) with
    (@delegate R (fun r => rest.getPage r
       (VObj [("cursor", VUndefined); ("limit", VUndefined);
              ("after", VUndefined); ("before", VUndefined);
              ("types", VUndefined); ("cardIds", VUndefined);
              ("ids", VUndefined)]) VUndefined)).
  change (@CorporateCard.page R [VObj [("limit", VNull)]]) with
    (@delegate R (fun r => rest.getPage r
       (VObj [("cursor", VUndefined); ("limit", VNull);
              ("after", VUndefined); ("before", VUndefined);
              ("types", VUndefined); ("cardIds", VUndefined);
              ("ids", VUndefined)]) VUndefined)).
  destruct (@UtilityPayment_null_as_omitted R "limit" [] eq_refl)
    as [-> _].
  rewrite !exec_delegate. cbn [calls map filter_of].
  repeat split; discriminate.
Qed.

(** ** The resource descriptor *)

(** One exported function, started from any value of the binding: the
    binding is left as it was and every call made carries it. *)
Lemma exported_keeps_binding {check : Check} {R : Type}
    (gateway : rest.call -> result R) (binding0 : descriptor)
    (k : kind) (op : operation) (f : list value -> prog R R)
    (args : list value) :
  exported k op = Some f ->
  binding (exec gateway binding0 (f args)) = binding0
  /\ Forall (fun c => rest.resource_of c = binding0)
            (calls (exec gateway binding0 (f args))).
Proof.
  intros Hf.
  destruct (arg (options_position op) args) eqn:Hopts.
  2: { rewrite (exported_null_options k op args Hf Hopts). simpl.
       split; [reflexivity | constructor]. }
  all: destruct (exported_delegates k op args Hf) as (c & -> & Hc);
    [ rewrite Hopts; discriminate | ];
    rewrite exec_delegate; simpl;
    split; [reflexivity | constructor; [apply Hc | constructor]].
Qed.

Lemma session_keeps_binding {check : Check} {R : Type}
    (gateway : rest.call -> result R) (k : kind)
    (todo : list (operation * list value)) (binding0 : descriptor) :
  fst (session gateway k binding0 todo) = binding0
  /\ Forall (fun c => rest.resource_of c = binding0)
            (snd (session gateway k binding0 todo)).
Proof.
  revert binding0.
  induction todo as [ | [op args] later IH]; intros binding0.
  - simpl. split; [reflexivity | constructor].
  - simpl. destruct (exported k op) as [f | ] eqn:Hf.
    + destruct (exported_keeps_binding gateway binding0 k op args Hf)
        as [Hsame Hcalls].
      rewrite Hsame.
      specialize (IH binding0).
      destruct (session gateway k binding0 later) as [final made].
      simpl in *. destruct IH as [IHfinal IHmade].
      split; [exact IHfinal | ].
      apply Forall_app. split; assumption.
    + apply IH.
Qed.

(** C10: each module binds [resource] to its own Log class paired with its
    own name, and the three names differ.  Whatever exported functions of a
    module are called, in whatever order and with whatever arguments and
    gateway answers, the binding still holds that descriptor afterwards and
    every gateway call made carried it; a function called with options
    other than null makes exactly one such call. *)
Theorem operations_pass_module_descriptor
    (check : Check) (R : Type) (gateway : rest.call -> result R) (k : kind) :
  (resource InvoiceLog = {| class := Invoice.Log; name := "InvoiceLog" |}
   /\ resource CorporateCardLog =
      {| class := CorporateCard.Log; name := "corporateCardLog" |}
   /\ resource UtilityPaymentLog =
      {| class := UtilityPayment.Log; name := "UtilityPaymentLog" |})
  /\ (forall k', name (resource k) = name (resource k') -> k = k')
  /\ (forall todo : list (operation * list value),
        fst (session gateway k (resource k) todo) = resource k
        /\ Forall (fun c => rest.resource_of c = resource k)
                  (snd (session gateway k (resource k) todo)))
  /\ (forall (op : operation) (f : list value -> prog R R)
             (args : list value),
        exported k op = Some f ->
        arg (options_position op) args <> VNull ->
        exists c, calls (exec gateway (resource k) (f args)) = [c]
                  /\ rest.resource_of c = resource k
                  /\ binding (exec gateway (resource k) (f args))
                     = resource k).
Proof.
  split; [ | split; [ | split]].
  - repeat split.
  - intros k'. destruct k, k'; simpl; intros H;
      try reflexivity; discriminate H.
  - intros todo. apply session_keeps_binding.
  - intros op f args Hf Hopts.
    destruct (exported_delegates k op args Hf Hopts) as (c & -> & Hc).
    rewrite exec_delegate. simpl.
    exists (c (resource k)). repeat split. apply Hc.
Qed.

(** ** The lazy sequence of [query] and the single page of [page] *)

Module GatewayFacts.
Import Gateway.

Lemma deliver_nothing_left (d : descriptor) (raws : list value)
    (ending : option error) :
  deliver d (Some O) raws ending = ([], None).
Proof. destruct raws; reflexivity. Qed.

(** Never more entities than the limit. *)
Lemma deliver_within_limit (d : descriptor) (raws : list value)
    (ending : option error) :
  forall n, (length (fst (deliver d (Some n) raws ending)) <= n)%nat.
Proof.
  induction raws as [ | raw more IH]; intros n.
  - destruct n; simpl; lia.
  - destruct n as [ | n]; simpl; [lia | ].
    destruct (entity d raw) as [v | e]; simpl; [ | lia].
    specialize (IH n).
    destruct (deliver d (Some n) more ending) as [vs e]. simpl in *. lia.
Qed.

(** Never more entities than records. *)
Lemma deliver_within_records (d : descriptor) (raws : list value)
    (ending : option error) :
  forall left, (length (fst (deliver d left raws ending)) <= length raws)%nat.
Proof.
  induction raws as [ | raw more IH]; intros left.
  - destruct left as [[ | n] | ]; simpl; lia.
  - destruct left as [[ | n] | ]; simpl; try lia.
    + destruct (entity d raw) as [v | e]; simpl; [ | lia].
      specialize (IH (Some n)). simpl.
      destruct (deliver d (Some n) more ending) as [vs e]. simpl in *. lia.
    + destruct (entity d raw) as [v | e]; simpl; [ | lia].
      specialize (IH None).
      destruct (deliver d None more ending) as [vs e]. simpl in *. lia.
Qed.

(** Without a limit, and when every record maps, all records are
    delivered and the sequence ends as the chain does. *)
Lemma deliver_unlimited (d : descriptor) (raws es : list value)
    (ending : option error) :
  entities d raws = Ok es -> deliver d None raws ending = (es, ending).
Proof.
  revert es. induction raws as [ | raw more IH]; intros es Hes.
  - simpl in Hes. injection Hes as <-. reflexivity.
  - simpl in Hes. simpl.
    destruct (entity d raw) as [v | e]; simpl in Hes; [ | discriminate].
    destruct (entities d more) as [vs | e]; simpl in Hes; [ | discriminate].
    injection Hes as <-. rewrite (IH vs eq_refl). reflexivity.
Qed.

Lemma entities_length (d : descriptor) (raws es : list value) :
  entities d raws = Ok es -> length es = length raws.
Proof.
  revert es. induction raws as [ | raw more IH]; intros es Hes.
  - simpl in Hes. injection Hes as <-. reflexivity.
  - simpl in Hes.
    destruct (entity d raw) as [v | e]; simpl in Hes; [ | discriminate].
    destruct (entities d more) as [vs | e]; simpl in Hes; [ | discriminate].
    injection Hes as <-. simpl. rewrite (IH vs eq_refl). reflexivity.
Qed.


(** What [refill] finds is the head of the records the chain holds. *)
Lemma refill_records (c : chain) :
  forall made,
    match refill c made with
    | Err e => chain_records c = ([], Some e)
    | Ok None => chain_records c = ([], None)
    | Ok (Some (raw, more, rest, made')) =>
        fst (chain_records c) = raw :: more ++ fst (behind rest)
        /\ snd (chain_records c) = snd (behind rest)
        /\ (made < made')%nat
    end.
Proof.
  induction c as [xs | xs cursor next IH | e]; intros made.
  - destruct xs as [ | x xs]; simpl.
    + reflexivity.
    + rewrite app_nil_r. repeat split. lia.
  - destruct xs as [ | x xs]; simpl.
    + specialize (IH (S made)).
      destruct (refill next (S made)) as [[[[[raw more] rest] made'] | ] | e].
      * destruct (chain_records next) as [ys e]. simpl in *.
        destruct IH as (H1 & H2 & H3). repeat split; auto. lia.
      * rewrite IH. reflexivity.
      * rewrite IH. reflexivity.
    + destruct (chain_records next) as [ys e]. simpl.
      repeat split. lia.
  - reflexivity.
Qed.

(** One advance of the sequence against what it will deliver. *)
Lemma emit_contents (g : generator) (raw : value) (more : list value)
    (rest : option chain) (made : nat) (ending : option error) :
  remaining g <> Some O ->
  ending = snd (behind rest) ->
  match emit g raw more rest made with
  | Yield v g' =>
      deliver (source g) (remaining g)
              (raw :: more ++ fst (behind rest)) ending
      = (v :: fst (contents g'), snd (contents g'))
      /\ ahead g' = more ++ fst (behind rest)
  | Raised e =>
      deliver (source g) (remaining g)
              (raw :: more ++ fst (behind rest)) ending
      = ([], Some e)
  | Done => False
  end.
Proof.
  intros Hleft ->. unfold emit.
  destruct (remaining g) as [[ | n] | ] eqn:Hremaining;
    [contradiction | | ]; simpl;
    destruct (entity (source g) raw) as [v | e]; try reflexivity;
    unfold contents, ahead; simpl;
    match goal with
    | |- context [deliver ?d ?l ?r ?e] => destruct (deliver d l r e)
    end; split; reflexivity.
Qed.

Lemma next_active (g : generator) :
  remaining g <> Some O ->
  next g =
  match buffer g with
  | raw :: more => emit g raw more (pending g) (requests g)
  | [] =>
      match pending g with
      | None => Done
      | Some c =>
          match refill c (requests g) with
          | Err e => Raised e
          | Ok None => Done
          | Ok (Some (raw, more, rest, made)) => emit g raw more rest made
          end
      end
  end.
Proof.
  intros Hleft. unfold next.
  destruct (remaining g) as [[ | n] | ]; [contradiction | | ]; reflexivity.
Qed.

Lemma deliver_no_records (d : descriptor) (left : option nat)
    (ending : option error) :
  left <> Some O -> deliver d left [] ending = ([], ending).
Proof.
  intros Hleft. destruct left as [[ | n] | ]; [contradiction | | ];
    reflexivity.
Qed.

Lemma next_contents (g : generator) :
  match next g with
  | Yield v g' =>
      contents g = (v :: fst (contents g'), snd (contents g'))
      /\ length (ahead g) = S (length (ahead g'))
  | Done => contents g = ([], None)
  | Raised e => contents g = ([], Some e)
  end.
Proof.
  destruct (remaining g) as [[ | n] | ] eqn:Hremaining.
  { unfold next, contents. rewrite Hremaining. apply deliver_nothing_left. }
  all: assert (Hleft : remaining g <> Some O)
    by (rewrite Hremaining; discriminate);
    rewrite (next_active g Hleft); clear Hremaining;
    assert (Hcontents :
              contents g =
              deliver (source g) (remaining g)
                      (buffer g ++ fst (behind (pending g)))
                      (snd (behind (pending g)))) by reflexivity;
    rewrite Hcontents; clear Hcontents;
    assert (Hlength :
              length (ahead g) =
              length (buffer g ++ fst (behind (pending g))))
      by reflexivity;
    rewrite Hlength; clear Hlength.
  all: destruct (buffer g) as [ | raw more] eqn:Hbuffer.
  all: try (pose proof (emit_contents g raw more (pending g) (requests g)
                          Hleft eq_refl) as Hemit;
            cbn [app];
            destruct (emit g raw more (pending g) (requests g))
              as [v g' | | e];
            [ destruct Hemit as [Hdeliver Hahead];
              split; [exact Hdeliver | rewrite Hahead; reflexivity]
            | contradiction
            | exact Hemit ]).
  all: destruct (pending g) as [c | ] eqn:Hpending;
    cbn [app behind fst snd];
    [ | apply deliver_no_records; exact Hleft ].
  all: pose proof (refill_records c (requests g)) as Hrefill;
    destruct (refill c (requests g))
      as [[[[[raw more] rest] made'] | ] | e];
    [ destruct Hrefill as (Hrecords & Hending & _);
      pose proof (emit_contents g raw more rest made' Hleft Hending)
        as Hemit;
      rewrite Hrecords;
      destruct (emit g raw more rest made') as [v g' | | e];
      [ destruct Hemit as [Hdeliver Hahead];
        split; [exact Hdeliver | rewrite Hahead; reflexivity]
      | contradiction
      | exact Hemit ]
    | rewrite Hrefill; apply deliver_no_records; exact Hleft
    | rewrite Hrefill; cbn [fst snd]; destruct (remaining g) as [[ | n'] | ];
      [contradiction | reflexivity | reflexivity] ].
Qed.

(** Consuming the sequence ends, after at most one advance per record
    ahead and one more, with what the sequence was to deliver. *)
Lemma consume_contents (fuel : nat) :
  forall g, (length (ahead g) < fuel)%nat ->
            consume fuel g = Some (contents g).
Proof.
  induction fuel as [ | fuel IH]; intros g Hfuel; [lia | ].
  simpl. pose proof (next_contents g) as Hnext.
  destruct (next g) as [v g' | | e].
  - destruct Hnext as [Hcontents Hahead].
    rewrite (IH g') by lia. rewrite Hcontents.
    destruct (contents g'). reflexivity.
  - rewrite Hnext. reflexivity.
  - rewrite Hnext. reflexivity.
Qed.

Lemma contents_within_limit (g : generator) (n : nat) :
  remaining g = Some n -> (length (fst (contents g)) <= n)%nat.
Proof.
  intros Hn. unfold contents. rewrite Hn. apply deliver_within_limit.
Qed.

(** An advance requests pages only when the buffer is empty. *)
Lemma next_from_buffer (g : generator) (v : value) (g' : generator) :
  buffer g <> [] -> next g = Yield v g' -> requests g' = requests g.
Proof.
  intros Hbuffer. unfold next, emit.
  destruct (remaining g) as [[ | n] | ]; [discriminate | | ];
    (destruct (buffer g) as [ | raw more]; [contradiction | ];
     destruct (entity (source g) raw); [ | discriminate];
     intros [= _ <-]; reflexivity).
Qed.
End GatewayFacts.

(** [query] in full: one [rest.getList] call whose filter object holds the
    limit and the types of the options. *)
Lemma query_delegates {check : Check} {R : Type}
    (k : kind) (f : list value -> prog R R) (opts : value) :
  exported k Query = Some f ->
  opts <> VNull ->
  exists query user,
    f [opts] = delegate (fun d => rest.getList d query user)
    /\ Gateway.limit_of query = Gateway.limit_of opts
    /\ (forall allowed, field opts "types" = VArr allowed ->
                        field query "types" = VArr allowed).
Proof.
  intros Hf Hopts.
  destruct k; simpl in Hf; inversion Hf; subst f; clear Hf; unfold_exported;
    cbn [arg nth]; rewrite (options_bound _ Hopts);
    (eexists; eexists; split; [reflexivity | ]);
    unfold Gateway.limit_of;
    (destruct opts as [ | | b | n | s | items | props | t];
     [ | contradiction | | | | | | ]);
    cbn [default field lookup String.eqb Ascii.eqb Bool.eqb];
    (split; [ | intros allowed Htypes; try discriminate Htypes ]);
    try reflexivity;
    try (destruct (lookup "limit" props); reflexivity);
    try (rewrite Htypes; reflexivity).
Qed.

(** [page] in full: one [rest.getPage] call. *)
Lemma page_delegates {check : Check} {R : Type}
    (k : kind) (opts : value) :
  opts <> VNull ->
  exists query user,
    forall f : list value -> prog R R,
      exported k Page = Some f ->
      f [opts] = delegate (fun d => rest.getPage d query user).
Proof.
  intros Hopts.
  destruct k; eexists; eexists; intros f Hf;
    simpl in Hf; inversion Hf; subst f; clear Hf; unfold_exported;
    cbn [arg nth]; rewrite (options_bound _ Hopts); reflexivity.
Qed.

(** ** The concrete remote meets the contract of the remote *)



Lemma Sample_page_size_bound (query : value) :
  (Sample.page_size query <= 100)%nat.
Proof.
  unfold Sample.page_size, Sample.within.
  destruct (field query "limit"); try lia.
  destruct ((1 <=? n) && (n <=? 100))%bool eqn:Hn; [ | lia].
  apply andb_prop in Hn. destruct Hn as [Hlo Hhi].
  apply Z.leb_le in Hlo, Hhi. lia.
Qed.


Lemma Sample_server_page_bound (collection : string -> list value) :
  Gateway.page_bound (Sample.server collection).
Proof.
  intros name query user. simpl.
  pose proof (Sample_page_size_bound query) as Hsize.
  set (matching := filter (Sample.admits query) (collection name)).
  set (offset := Sample.offset_of (field query "cursor")).
  set (size := Sample.page_size query) in *.
  pose proof (firstn_le_length size (skipn offset matching)) as Hpage.
  destruct (length matching) as [ | fuel]; simpl.
  - lia.
  - destruct (length (skipn offset matching) <=? size)%nat; lia.
Qed.


(** ** [query] and [page] over the gateway *)

(** C4: for every kind, remote and options, [query] makes one
    [rest.getList] call and gets a sequence that has requested no page yet
    (it is lazy); consumed, the sequence ends after at most one advance per
    record the remote holds for the filter, plus one (it is finite); with
    [limit: n] it yields at most [n] entities, however the records are
    spread over pages; with no limit (absent or null) and all records
    mapping to entities, it yields one entity per record of every page and
    ends as the chain of pages ends. *)
Theorem query_yields_at_most_limit
    (check : Check) (server : Gateway.remote) (k : kind)
    (f : list value -> prog Gateway.answer Gateway.answer) (opts : value) :
  exported k Query = Some f ->
  opts <> VNull ->
  exists query user g,
    let r := exec (Gateway.handle server) (resource k) (f [opts]) in
    let chain := Gateway.fetchPage server (name (resource k)) query user in
    calls r = [rest.getList (resource k) query user]
    /\ outcome r = Ok (Gateway.Sequence g)
    /\ (Gateway.requests g = 0%nat /\ Gateway.buffer g = []
        /\ Gateway.pending g = Some chain)
    /\ Gateway.consume (S (length (fst (Gateway.chain_records chain)))) g
       = Some (Gateway.contents g)
    /\ (forall n, field opts "limit" = VNum n ->
          Z.of_nat (length (fst (Gateway.contents g))) <= Z.max 0 n)
    /\ (nullish (field opts "limit") = true ->
        forall es,
          Gateway.entities (resource k) (fst (Gateway.chain_records chain))
          = Ok es ->
          Gateway.contents g = (es, snd (Gateway.chain_records chain))).
Proof.
  intros Hf Hopts.
  destruct (query_delegates k Hf Hopts)
    as (query & user & -> & Hlimit & _).
  set (chain := Gateway.fetchPage server (name (resource k)) query user).
  exists query, user,
    {| Gateway.source := resource k; Gateway.buffer := [];
       Gateway.pending := Some chain;
       Gateway.remaining := Gateway.limit_of query;
       Gateway.requests := 0 |}.
  cbv zeta. rewrite exec_delegate. cbn [outcome calls Gateway.handle].
  split; [reflexivity | ]. split; [reflexivity | ].
  split; [repeat split | ].
  split; [ | split].
  - apply GatewayFacts.consume_contents. unfold Gateway.ahead. simpl.
    fold chain. lia.
  - intros n Hn.
    match goal with
    | |- context [Gateway.contents ?g] =>
        pose proof (@GatewayFacts.contents_within_limit g (Z.to_nat n)) as Hle
    end.
    assert (Hleft : Gateway.limit_of query = Some (Z.to_nat n)).
    { rewrite Hlimit. unfold Gateway.limit_of. rewrite Hn. reflexivity. }
    specialize (Hle Hleft). lia.
  - intros Hnone es Hes. unfold Gateway.contents.
    cbn [Gateway.remaining Gateway.source Gateway.pending].
    rewrite Hlimit. unfold Gateway.limit_of.
    destruct (field opts "limit"); try discriminate Hnone;
      apply GatewayFacts.deliver_unlimited; exact Hes.
Qed.

(** C5: for every kind and options, [page] makes exactly one gateway call,
    a [rest.getPage] with the module's descriptor, whatever the gateway;
    over a remote whose pages hold at most 100 records the caller gets the
    entities of that one page, at most 100, with a cursor that is null
    exactly when the remote returned no cursor, and the page's cursor
    otherwise. *)
Theorem page_makes_one_request
    (check : Check) (server : Gateway.remote) (k : kind) (opts : value) :
  opts <> VNull ->
  Gateway.page_bound server ->
  (forall (R : Type) (gateway : rest.call -> result R)
          (f : list value -> prog R R),
      exported k Page = Some f ->
      exists query user,
        calls (exec gateway (resource k) (f [opts]))
        = [rest.getPage (resource k) query user])
  /\ exists query user,
       forall f : list value -> prog Gateway.answer Gateway.answer,
         exported k Page = Some f ->
         let r := exec (Gateway.handle server) (resource k) (f [opts]) in
         let fetched :=
           Gateway.fetchPage server (name (resource k)) query user in
         calls r = [rest.getPage (resource k) query user]
         /\ (forall a, outcome r = Ok a ->
               exists es cursor,
                 a = Gateway.Paged es cursor
                 /\ (length es <= 100)%nat
                 /\ (cursor = VNull <->
                     exists raws, fetched = Gateway.Last raws)
                 /\ (forall c, cursor = VStr c <->
                       exists raws next, fetched = Gateway.More raws c next)).
Proof.
  intros Hopts Hbound. split.
  - intros R gateway f Hf.
    destruct (@page_delegates check R k opts Hopts) as (query & user & Hpage).
    exists query, user. rewrite (Hpage f Hf), exec_delegate. reflexivity.
  - destruct (@page_delegates check Gateway.answer k opts Hopts)
      as (query & user & Hpage).
    exists query, user. intros f Hf. cbv zeta.
    rewrite (Hpage f Hf), exec_delegate.
    cbn [outcome calls Gateway.handle].
    split; [reflexivity | ].
    intros a Ha. unfold Gateway.getPage in Ha.
    specialize (Hbound (name (resource k)) query user).
    destruct (Gateway.fetchPage server (name (resource k)) query user)
      as [raws | raws cursor next | e]; [ | | discriminate Ha].
    + destruct (Gateway.entities (resource k) raws) as [es | e] eqn:Hes;
        simpl in Ha; [ | discriminate Ha].
      injection Ha as <-. exists es, VNull.
      rewrite (GatewayFacts.entities_length _ _ Hes).
      split; [reflexivity | ]. split; [exact Hbound | ].
      split.
      * split; [intros _; exists raws; reflexivity | reflexivity].
      * intros c. split; [discriminate | intros (? & ? & H); discriminate H].
    + destruct (Gateway.entities (resource k) raws) as [es | e] eqn:Hes;
        simpl in Ha; [ | discriminate Ha].
      injection Ha as <-. exists es, (VStr cursor).
      rewrite (GatewayFacts.entities_length _ _ Hes).
      split; [reflexivity | ]. split; [exact Hbound | ].
      split.
      * split; [discriminate | intros (? & H); discriminate H].
      * intros c. split.
        -- intros [= <-]. exists raws, next. reflexivity.
        -- intros (? & ? & [= _ <- _]). reflexivity.
Qed.





(** Five records on three pages and [limit: 3]: three entities, two pages
    requested. *)
Lemma query_yields_at_most_limit_witness :
  let record (id : string) :=
    VObj [("id", VStr id); ("type", VStr "paid");
          ("created", VStr "2020-03-10")] in
  let chain :=
    Gateway.More [record "1"; record "2"] "p2"
      (Gateway.More [record "3"; record "4"] "p3"
         (Gateway.Last [record "5"])) in
  let server :=
    {| Gateway.fetchById := fun _ _ _ => Err NotFound;
       Gateway.fetchPage := fun _ _ _ => chain;
       Gateway.fetchBinary := fun _ _ _ => Err NotFound |} in
  exists g,
    outcome (exec (Gateway.handle server) (@resource Sample.check InvoiceLog)
                  (Invoice.query [VObj [("limit", VNum 3)]]))
    = Ok (Gateway.Sequence g)
    /\ Gateway.requests g = 0%nat
    /\ Gateway.consume 6 g = Some (Gateway.contents g)
    /\ Z.of_nat (length (fst (Gateway.contents g))) <= 3.
Proof.
  intros record chain server.
  assert (Hopts : VObj [("limit", VNum 3)] <> VNull) by discriminate.
  destruct (@query_yields_at_most_limit Sample.check server InvoiceLog
              Invoice.query (VObj [("limit", VNum 3)]) eq_refl Hopts)
    as (query & user & g & _ & Hg & (Hlazy & _) & Hfinite & Hlimit & _).
  exists g. split; [exact Hg | ]. split; [exact Hlazy | ].
  split; [exact Hfinite | ].
  apply (Hlimit 3 eq_refl).
Defined.

(** Two records served one per page: the first page and its cursor. *)
Lemma page_makes_one_request_witness :
  let records :=
    [VObj [("id", VStr "1"); ("type", VStr "paid");
           ("created", VStr "2020-03-10 10:30:00.000")];
     VObj [("id", VStr "2"); ("type", VStr "registered");
           ("created", VStr "2020-03-11 10:30:00.000")]] in
  let server := Sample.server (fun _ => records) in
  let r := exec (Gateway.handle server) (@resource Sample.check InvoiceLog)
                (Invoice.page [VObj [("limit", VNum 1)]]) in
  length (calls r) = 1%nat
  /\ exists es cursor,
       outcome r = Ok (Gateway.Paged es cursor)
       /\ (length es <= 100)%nat
       /\ cursor = VStr "1".
Proof.
  intros records server r.
  assert (Hopts : VObj [("limit", VNum 1)] <> VNull) by discriminate.
  destruct (@page_makes_one_request Sample.check server InvoiceLog
              (VObj [("limit", VNum 1)]) Hopts
              (Sample_server_page_bound _))
    as (_ & query & user & Hpage).
  destruct (Hpage Invoice.page eq_refl) as (Hcalls & Hanswer).
  split.
  - subst r. rewrite Hcalls. reflexivity.
  - assert (Hout : exists es, outcome r = Ok (Gateway.Paged es (VStr "1")))
      by (eexists; reflexivity).
    destruct Hout as (es0 & Hout).
    destruct (Hanswer _ Hout) as (es & cursor & [= <- <-] & Hlen & _).
    exists es0, (VStr "1"). split; [exact Hout | ].
    split; [exact Hlen | reflexivity].
Defined.

(** * Further properties of the three modules *)

(** ** How the exported functions treat their arguments *)

(** X1: whatever the module, the function and the gateway, an exported
    function called with options other than null makes exactly one gateway
    call and hands the caller what that call answered, a result or an error,
    unchanged; called with null options it fails with a TypeError before any
    gateway call is made. *)
Theorem exported_hands_back_gateway_answer
    (check : Check) (R : Type) (gateway : rest.call -> result R)
    (d : descriptor) (k : kind) (op : operation)
    (f : list value -> prog R R) (args : list value) :
  exported k op = Some f ->
  (arg (options_position op) args <> VNull ->
   exists c, calls (exec gateway d (f args)) = [c]
             /\ outcome (exec gateway d (f args)) = gateway c
             /\ rest.resource_of c = d)
  /\ (arg (options_position op) args = VNull ->
      calls (exec gateway d (f args)) = []
      /\ outcome (exec gateway d (f args)) = Err TypeError).
Proof.
  intros Hf. split; intros Hopts.
  - destruct (exported_delegates k op args Hf Hopts) as (c & -> & Hc).
    rewrite exec_delegate. exists (c d). repeat split. apply Hc.
  - rewrite (exported_null_options k op args Hf Hopts). split; reflexivity.
Qed.

Lemma exported_hands_back_gateway_answer_witness :
  let gateway (c : rest.call) : result value := Err TransportError in
  outcome (exec gateway (@CorporateCard.resource Sample.check)
                (CorporateCard.page [VObj [("limit", VNum 2)]]))
  = Err TransportError
  /\ calls (exec gateway (@CorporateCard.resource Sample.check) (CorporateCard.page [VNull]))
     = [].
Proof.
  intro gateway.
  destruct (@exported_hands_back_gateway_answer Sample.check value gateway
              (@CorporateCard.resource Sample.check) CorporateCardLog Page
              CorporateCard.page [VObj [("limit", VNum 2)]] eq_refl)
    as [Hcall _].
  destruct (@exported_hands_back_gateway_answer Sample.check value gateway
              (@CorporateCard.resource Sample.check) CorporateCardLog Page
              CorporateCard.page [VNull] eq_refl)
    as [_ Hnull].
  split.
  - destruct Hcall as (c & _ & Hanswer & _); [discriminate | ].
    rewrite Hanswer. reflexivity.
  - apply Hnull. reflexivity.
Defined.

Lemma field_of_defaulted_options (opts : value) (key : string) :
  field (default (VObj []) opts) key = field opts key.
Proof. destruct opts; reflexivity. Qed.

(** X2: an options argument that is left out, [undefined], the empty
    object, or any value that is neither an object nor null (a number, a
    string, a boolean, an array) all make an exported function do the same
    thing. *)
Theorem options_absent_or_primitive_as_empty
    (check : Check) (R : Type) (k : kind) (op : operation)
    (f : list value -> prog R R) (before : list value) (opts : value) :
  exported k op = Some f ->
  length before = options_position op ->
  is_object opts = false ->
  opts <> VNull ->
  f (before ++ [opts]) = f (before ++ [VObj []])
  /\ f before = f (before ++ [VObj []]).
Proof.
  intros Hf Hbefore Hprimitive Hopts.
  by_cases_on_exported Hf; simpl in Hbefore;
    (destruct before as [ | id [ | ? ?]]; try discriminate Hbefore);
    unfold_exported; cbn [app arg nth];
    destruct opts; try discriminate Hprimitive; try contradiction;
    split; reflexivity.
Qed.

Lemma options_absent_or_primitive_as_empty_witness :
  @Invoice.get value [VStr "5656565656565656"; VNum 7]
  = Invoice.get [VStr "5656565656565656"; VObj []]
  /\ @Invoice.get value [VStr "5656565656565656"]
     = Invoice.get [VStr "5656565656565656"; VObj []].
Proof.
  assert (Hopts : VNum 7 <> VNull) by discriminate.
  exact (@options_absent_or_primitive_as_empty Sample.check value InvoiceLog
           Get Invoice.get [VStr "5656565656565656"] (VNum 7)
           eq_refl eq_refl eq_refl Hopts).
Defined.

(** X3: an exported function depends on its options only through the names
    its parameter pattern binds, and ignores any actual argument after the
    options: two calls whose options agree on those names (and, for [get]
    and [pdf], with the same id) do the same thing, whatever else the
    options hold and whatever arguments follow. *)
Theorem exported_reads_only_its_pattern
    (check : Check) (R : Type) (k : kind) (op : operation)
    (f : list value -> prog R R)
    (before extra extra' : list value) (opts opts' : value) :
  exported k op = Some f ->
  length before = options_position op ->
  opts <> VNull -> opts' <> VNull ->
  (forall key, In key (reads k op) -> field opts key = field opts' key) ->
  f (before ++ opts :: extra) = f (before ++ opts' :: extra').
Proof.
  intros Hf Hbefore Hopts Hopts' Hsame.
  by_cases_on_exported Hf; simpl in Hbefore, Hsame;
    (destruct before as [ | id [ | ? ?]]; try discriminate Hbefore);
    unfold_exported; cbn [app arg nth];
    rewrite (options_bound _ Hopts), (options_bound _ Hopts');
    cbv beta; rewrite !field_of_defaulted_options;
    repeat match goal with
           | |- context [field opts ?key] =>
               rewrite (Hsame key) by (simpl; tauto)
           end;
    reflexivity.
Qed.

Lemma exported_reads_only_its_pattern_witness :
  @Invoice.pdf value [VStr "1"; VObj [("user", VStr "project");
                                      ("limit", VNum 3)];
                      VStr "ignored"]
  = Invoice.pdf [VStr "1"; VObj [("user", VStr "project")]].
Proof.
  assert (H1 : VObj [("user", VStr "project"); ("limit", VNum 3)] <> VNull)
    by discriminate.
  assert (H2 : VObj [("user", VStr "project")] <> VNull) by discriminate.
  apply (@exported_reads_only_its_pattern Sample.check value InvoiceLog Pdf
           Invoice.pdf [VStr "1"] [VStr "ignored"] []
           _ _ eq_refl eq_refl H1 H2).
  intros key [<- | []]. reflexivity.
Defined.

(** ** What [query] and [page] send *)

Lemma exec_read_await {R : Type} (gateway : rest.call -> result R)
    (d : descriptor) (c : descriptor -> rest.call) :
  calls (exec gateway d (ReadBinding (fun r => Await (c r) Ret))) = [c d].
Proof. simpl. destruct (gateway (c d)); reflexivity. Qed.

Ltac split_key_cases key :=
  repeat match goal with
         | |- context [String.eqb key ?s] =>
             destruct (String.eqb_spec key s); subst; cbn [lookup]
         end.

(** The filter object and the [user] argument of the one call [query] or
    [page] makes. *)
Lemma filter_sent
    (check : Check) (R : Type) (gateway : rest.call -> result R)
    (d : descriptor) (k : kind) (op : operation)
    (f : list value -> prog R R) (opts : value) :
  exported k op = Some f ->
  op = Query \/ op = Page ->
  opts <> VNull ->
  exists props,
    map filter_of (calls (exec gateway d (f [opts]))) = [Some (VObj props)]
    /\ keys props = filter_keys k op
    /\ ~ In "user" (keys props)
    /\ (forall key, In key (filter_keys k op) ->
                    lookup key props = defaulted k (field opts key))
    /\ (forall key, ~ In key (filter_keys k op) ->
                    lookup key props = VUndefined)
    /\ map user_of (calls (exec gateway d (f [opts])))
       = [defaulted k (field opts "user")].
Proof.
  intros Hf Hop Hopts.
  by_cases_on_exported Hf;
    try (destruct Hop as [Hop | Hop]; discriminate Hop);
    unfold_exported; cbn [arg nth]; rewrite (options_bound _ Hopts);
    cbv beta zeta; rewrite exec_read_await;
    rewrite !field_of_defaulted_options;
    (eexists; split; [reflexivity | ]);
    (split; [reflexivity | ]);
    (split; [cbn; intuition discriminate | ]);
    (split; [ | split; [ | reflexivity]]).
  all: intros key Hkey; cbn [filter_keys In] in Hkey; cbn [lookup].
  all: try (split_key_cases key; try reflexivity; exfalso; tauto).
  all: repeat (destruct Hkey as [<- | Hkey]; [reflexivity | ]);
    contradiction.
Qed.

(** X4: the filter object [query] and [page] pass to the gateway has the
    property names of the module's object literal, in its order, and nothing
    else: [user] is never in it and an options key outside the literal is
    not forwarded.  Each property holds the option of that name as the
    caller gave it; in the utility-payment module an undefined (omitted) one
    is replaced by null.  The [user] option travels as the call's separate
    [user] argument, under the same rule. *)
Theorem filter_object_shape
    (check : Check) (R : Type) (gateway : rest.call -> result R)
    (d : descriptor) (k : kind) (op : operation)
    (f : list value -> prog R R) (opts : value) :
  exported k op = Some f ->
  op = Query \/ op = Page ->
  opts <> VNull ->
  exists props,
    map filter_of (calls (exec gateway d (f [opts]))) = [Some (VObj props)]
    /\ keys props = filter_keys k op
    /\ ~ In "user" (keys props)
    /\ (forall key, In key (filter_keys k op) ->
                    lookup key props = defaulted k (field opts key))
    /\ (forall key, ~ In key (filter_keys k op) ->
                    lookup key props = VUndefined)
    /\ map user_of (calls (exec gateway d (f [opts])))
       = [defaulted k (field opts "user")].
Proof.
  intros Hf Hop Hopts. apply filter_sent; assumption.
Qed.

Lemma filter_object_shape_witness :
  let opts := VObj [("limit", VNum 5); ("user", VStr "project");
                    ("cursor", VStr "abc"); ("ids", VArr [VStr "9"])] in
  map filter_of (calls (exec (fun _ => Ok VNull) UtilityPayment.resource
                             (UtilityPayment.query [opts])))
  = [Some (VObj [("limit", VNum 5); ("after", VNull); ("before", VNull);
                 ("types", VNull); ("paymentIds", VNull)])].
Proof.
  intro opts.
  assert (Hopts : opts <> VNull) by discriminate.
  destruct (@filter_object_shape Sample.check value (fun _ => Ok VNull)
              UtilityPayment.resource UtilityPaymentLog Query
              UtilityPayment.query opts eq_refl (or_introl eq_refl) Hopts)
    as (props & Hsent & _).
  rewrite Hsent. injection Hsent as <-. reflexivity.
Defined.

Lemma page_keys_are_query_keys_and_cursor (k : kind) (key : string) :
  In key (filter_keys k Page)
  <-> key = "cursor" \/ In key (filter_keys k Query).
Proof. destruct k; simpl; intuition congruence. Qed.

Lemma cursor_not_in_query_keys (k : kind) :
  ~ In "cursor" (filter_keys k Query).
Proof. destruct k; simpl; intuition discriminate. Qed.

(** X5: for the same options, [page] sends the filter [query] sends plus the
    cursor: the two filter objects agree on every property other than
    [cursor], which [query] never sends even when the options hold one, and
    the two calls carry the same [user]. *)
Theorem page_filter_is_query_filter_with_cursor
    (check : Check) (R : Type) (gateway : rest.call -> result R)
    (d : descriptor) (k : kind)
    (fq fp : list value -> prog R R) (opts : value) :
  exported k Query = Some fq ->
  exported k Page = Some fp ->
  opts <> VNull ->
  exists query page,
    map filter_of (calls (exec gateway d (fq [opts]))) = [Some (VObj query)]
    /\ map filter_of (calls (exec gateway d (fp [opts])))
       = [Some (VObj page)]
    /\ lookup "cursor" query = VUndefined
    /\ lookup "cursor" page = defaulted k (field opts "cursor")
    /\ (forall key, key <> "cursor" -> lookup key page = lookup key query)
    /\ map user_of (calls (exec gateway d (fq [opts])))
       = map user_of (calls (exec gateway d (fp [opts]))).
Proof.
  intros Hq Hp Hopts.
  destruct (@filter_sent check R gateway d k Query fq opts Hq
              (or_introl eq_refl) Hopts)
    as (query & Hqsent & _ & _ & Hqin & Hqout & Hquser).
  destruct (@filter_sent check R gateway d k Page fp opts Hp
              (or_intror eq_refl) Hopts)
    as (page & Hpsent & _ & _ & Hpin & Hpout & Hpuser).
  exists query, page.
  split; [exact Hqsent | ]. split; [exact Hpsent | ].
  split; [apply Hqout, cursor_not_in_query_keys | ].
  split; [apply Hpin, page_keys_are_query_keys_and_cursor; left; reflexivity | ].
  split; [ | rewrite Hquser, Hpuser; reflexivity].
  intros key Hkey.
  destruct (in_dec string_dec key (filter_keys k Query)) as [Hin | Hout].
  - rewrite (Hqin key Hin). apply Hpin.
    apply page_keys_are_query_keys_and_cursor. right. exact Hin.
  - rewrite (Hqout key Hout). apply Hpout.
    intros Hin. apply page_keys_are_query_keys_and_cursor in Hin.
    destruct Hin as [Hcursor | Hin]; [exact (Hkey Hcursor) | exact (Hout Hin)].
Qed.

Lemma page_filter_is_query_filter_with_cursor_witness :
  let opts := VObj [("cursor", VStr "abc"); ("ids", VArr [VStr "9"]);
                    ("limit", VNum 5)] in
  let gateway (c : rest.call) : result value := Ok VNull in
  exists query page,
    map filter_of (calls (exec gateway (@CorporateCard.resource Sample.check)
                               (CorporateCard.query [opts])))
    = [Some (VObj query)]
    /\ map filter_of (calls (exec gateway
                                  (@CorporateCard.resource Sample.check)
                                  (CorporateCard.page [opts])))
       = [Some (VObj page)]
    /\ lookup "cursor" query = VUndefined
    /\ lookup "cursor" page = VStr "abc"
    /\ lookup "ids" page = lookup "ids" query.
Proof.
  intros opts gateway.
  assert (Hopts : opts <> VNull) by discriminate.
  destruct (@page_filter_is_query_filter_with_cursor Sample.check value
              gateway (@CorporateCard.resource Sample.check)
              CorporateCardLog CorporateCard.query CorporateCard.page opts
              eq_refl eq_refl Hopts)
    as (query & page & Hq & Hp & Hnone & Hcursor & Hsame & _).
  exists query, page.
  split; [exact Hq | ]. split; [exact Hp | ]. split; [exact Hnone | ].
  split; [exact Hcursor | ].
  apply Hsame. discriminate.
Defined.

Lemma default_null_defined (v : value) : default VNull v <> VUndefined.
Proof. destruct v; discriminate. Qed.



(** ** More on the constructors *)

(** X7: the invoice and the corporate-card constructors use only their
    first argument and fail in exactly two ways: with a TypeError when that
    argument is null, undefined or missing, and otherwise with whatever
    error the date check raises on the record's [created] value, passed on
    unchanged. *)
Theorem record_constructors_fail_exactly
    (check : Check) (raw : value) (extra : list value) (e : error) :
  (Invoice.Log (raw :: extra) = Err e
   <-> (nullish raw = true /\ e = TypeError)
       \/ (nullish raw = false /\ date (field raw "created") = Err e))
  /\ (CorporateCard.Log (raw :: extra) = Err e
      <-> (nullish raw = true /\ e = TypeError)
          \/ (nullish raw = false /\ datetime (field raw "created") = Err e))
  /\ Invoice.Log [] = Err TypeError
  /\ CorporateCard.Log [] = Err TypeError.
Proof.
  change (Invoice.Log (raw :: extra)) with (Invoice.Log [raw]).
  change (CorporateCard.Log (raw :: extra)) with (CorporateCard.Log [raw]).
  split; [ | split; [ | split; reflexivity]].
  - destruct (nullish raw) eqn:Hraw.
    + rewrite (Invoice_Log_nullish _ Hraw). split.
      * intros [= <-]. left. split; reflexivity.
      * intros [[_ ->] | [Hfalse _]]; [reflexivity | discriminate Hfalse].
    + rewrite (Invoice_Log_fields _ Hraw).
      destruct (date (field raw "created")) as [checked | e']; simpl; split.
      * discriminate.
      * intros [[Hfalse _] | [_ Hfalse]]; discriminate Hfalse.
      * intros H. right. split; [reflexivity | exact H].
      * intros [[Hfalse _] | [_ H]]; [discriminate Hfalse | exact H].
  - destruct (nullish raw) eqn:Hraw.
    + rewrite (CorporateCard_Log_nullish _ Hraw). split.
      * intros [= <-]. left. split; reflexivity.
      * intros [[_ ->] | [Hfalse _]]; [reflexivity | discriminate Hfalse].
    + rewrite (CorporateCard_Log_fields _ Hraw).
      destruct (datetime (field raw "created")) as [checked | e']; simpl;
        split.
      * discriminate.
      * intros [[Hfalse _] | [_ Hfalse]]; discriminate Hfalse.
      * intros H. right. split; [reflexivity | exact H].
      * intros [[Hfalse _] | [_ H]]; [discriminate Hfalse | exact H].
Qed.

(** X8: a UtilityPaymentLog holds exactly the own fields id, created, type,
    errors and payment, its id is never undefined, arguments after the
    fifth are ignored, and constructing again from the fields read back
    gives the same object. *)
Theorem UtilityPayment_Log_rebuilds (args : list value) (obj : value) :
  UtilityPayment.Log args = Ok obj ->
  UtilityPayment.Log [field obj "created"; field obj "type";
                      field obj "errors"; field obj "payment";
                      field obj "id"] = Ok obj
  /\ UtilityPayment.Log (firstn 5 args) = Ok obj
  /\ field obj "id" <> VUndefined
  /\ (exists props,
         obj = VObj props
         /\ keys props = ["id"; "created"; "type"; "errors"; "payment"])
  /\ (forall key,
         ~ In key ["id"; "created"; "type"; "errors"; "payment"] ->
         field obj key = VUndefined).
Proof.
  rewrite UtilityPayment_Log_fields. intros [= <-].
  split; [ | split; [ | split; [ | split]]].
  - rewrite UtilityPayment_Log_fields. cbn [arg nth field lookup String.eqb
      Ascii.eqb Bool.eqb].
    destruct (arg 4 args); reflexivity.
  - rewrite UtilityPayment_Log_fields. unfold arg.
    destruct args as [ | a0 [ | a1 [ | a2 [ | a3 [ | a4 more]]]]];
      reflexivity.
  - cbn. apply default_null_defined.
  - eexists. split; reflexivity.
  - intros key Hkey. unfold field.
    rewrite !lookup_other; [reflexivity | | | | | ];
      intros ->; apply Hkey; simpl; tauto.
Qed.

Lemma UtilityPayment_Log_rebuilds_witness :
  exists obj,
    UtilityPayment.Log [VStr "2020-03-10"; VStr "success"] = Ok obj
    /\ field obj "id" = VNull
    /\ UtilityPayment.Log [field obj "created"; field obj "type";
                           field obj "errors"; field obj "payment";
                           field obj "id"] = Ok obj.
Proof.
  eexists. split; [reflexivity | ]. split; [reflexivity | ].
  apply (@UtilityPayment_Log_rebuilds [VStr "2020-03-10"; VStr "success"]).
  reflexivity.
Defined.

(** X9: an InvoiceLog holds exactly the own fields id, created, type,
    errors and invoice, in that order: id, type, errors and invoice as the
    record gave them, created as the date check returned it; any other key
    of the record is dropped. *)
Theorem Invoice_Log_drops_other_fields
    (check : Check) (raw obj : value) :
  Invoice.Log [raw] = Ok obj ->
  exists props,
    obj = VObj props
    /\ keys props = ["id"; "created"; "type"; "errors"; "invoice"]
    /\ lookup "id" props = field raw "id"
    /\ lookup "type" props = field raw "type"
    /\ lookup "errors" props = field raw "errors"
    /\ lookup "invoice" props = field raw "invoice"
    /\ date (field raw "created") = Ok (lookup "created" props)
    /\ (forall key,
           ~ In key ["id"; "created"; "type"; "errors"; "invoice"] ->
           lookup key props = VUndefined).
Proof.
  intros Hbuilt.
  destruct (nullish raw) eqn:Hraw.
  - rewrite (Invoice_Log_nullish _ Hraw) in Hbuilt. discriminate.
  - rewrite (Invoice_Log_fields _ Hraw) in Hbuilt.
    destruct (date (field raw "created")) as [checked | e];
      simpl in Hbuilt; [ | discriminate].
    injection Hbuilt as <-.
    eexists. split; [reflexivity | ]. repeat split.
    intros key Hkey.
    rewrite !lookup_other; [reflexivity | | | | | ];
      intros ->; apply Hkey; simpl; tauto.
Qed.

Lemma Invoice_Log_drops_other_fields_witness :
  let raw := VObj [("id", VStr "1"); ("type", VStr "paid");
                   ("created", VStr "2020-03-10 10:30:00.000");
                   ("updated", VStr "2020-03-11 10:30:00.000")] in
  exists props,
    @Invoice.Log Sample.check [raw] = Ok (VObj props)
    /\ lookup "updated" props = VUndefined.
Proof.
  intro raw.
  destruct (@Invoice_Log_drops_other_fields Sample.check raw _ eq_refl)
    as (props & Hobj & _ & _ & _ & _ & _ & _ & Hother).
  exists props. split.
  - injection Hobj as <-. reflexivity.
  - apply Hother. simpl.
    intros [H | [H | [H | [H | [H | []]]]]]; discriminate H.
Defined.

(** ** Successive calls *)

Lemma exported_calls_ignore_answers {check : Check} {R : Type}
    (gateway gateway' : rest.call -> result R) (d : descriptor)
    (k : kind) (op : operation) (f : list value -> prog R R)
    (args : list value) :
  exported k op = Some f ->
  calls (exec gateway d (f args)) = calls (exec gateway' d (f args))
  /\ (length (calls (exec gateway d (f args))) <= 1)%nat.
Proof.
  intros Hf.
  destruct (arg (options_position op) args) eqn:Hopts.
  2: { rewrite (exported_null_options k op args Hf Hopts). simpl.
       split; [reflexivity | lia]. }
  all: destruct (exported_delegates k op args Hf) as (c & -> & _);
    [ rewrite Hopts; discriminate | ];
    rewrite !exec_delegate; simpl; split; [reflexivity | lia].
Qed.

(** X10: calls of a module's functions do not influence one another: the
    gateway calls of two runs of calls made one after the other are those
    of the first followed by those of the second; what is sent does not
    depend on what the gateway answered; the module binding is left as it
    was; and no more gateway calls are made than functions were called. *)
Theorem session_calls_are_independent
    (check : Check) (R : Type) (gateway gateway' : rest.call -> result R)
    (k : kind) (d : descriptor)
    (first second : list (operation * list value)) :
  session gateway k d (first ++ second)
  = (d, snd (session gateway k d first) ++ snd (session gateway k d second))
  /\ snd (session gateway k d first) = snd (session gateway' k d first)
  /\ (length (snd (session gateway k d first)) <= length first)%nat.
Proof.
  induction first as [ | [op args] later IH].
  - simpl. destruct (session_keeps_binding gateway k second d) as [Hsame _].
    destruct (session gateway k d second) as [final made]. simpl in *.
    subst final. repeat split. lia.
  - destruct IH as (IHapp & IHsame & IHlen).
    simpl. destruct (exported k op) as [f | ] eqn:Hf.
    + destruct (exported_keeps_binding gateway d k op args Hf) as [Hd _].
      destruct (exported_keeps_binding gateway' d k op args Hf) as [Hd' _].
      destruct (exported_calls_ignore_answers gateway gateway' d k op args Hf)
        as [Hcalls Hone].
      rewrite Hd, Hd', IHapp, <- Hcalls.
      destruct (session_keeps_binding gateway k later d) as [Hlater _].
      destruct (session gateway k d later) as [final made].
      destruct (session gateway' k d later) as [final' made'].
      simpl in *. subst final made'.
      rewrite length_app, app_assoc. repeat split. lia.
    + rewrite IHapp. repeat split; [exact IHsame | lia].
Qed.

(** ** The id of [get] and [pdf] *)

(** X11: [get] and [pdf] do not inspect the id: whatever the first argument
    is, a string, null, undefined or missing altogether, it reaches the
    gateway as it is, in the one call made, together with the [user] option;
    [pdf] passes an empty options object whatever options it was given. *)
Theorem id_reaches_gateway_unchecked
    (check : Check) (R : Type) (gateway : rest.call -> result R)
    (d : descriptor) (k : kind) (op : operation)
    (f : list value -> prog R R) (args : list value) :
  exported k op = Some f ->
  op = Get \/ op = Pdf ->
  arg 1 args <> VNull ->
  calls (exec gateway d (f args))
  = [match op with
     | Pdf => rest.getPdf d (arg 0 args) (VObj []) (field (arg 1 args) "user")
     | _ => rest.getId d (arg 0 args) (field (arg 1 args) "user")
     end].
Proof.
  intros Hf Hop Hopts.
  by_cases_on_exported Hf;
    try (destruct Hop as [Hop | Hop]; discriminate Hop);
    unfold_exported; rewrite (options_bound _ Hopts); cbv beta zeta;
    rewrite exec_read_await, field_of_defaulted_options; reflexivity.
Qed.

Lemma id_reaches_gateway_unchecked_witness :
  map id_of (calls (exec (fun _ => Ok VNull) UtilityPayment.resource
                         (UtilityPayment.get [])))
  = [Some VUndefined].
Proof.
  assert (Hopts : arg 1 [] <> VNull) by discriminate.
  rewrite (@id_reaches_gateway_unchecked Sample.check value
             (fun _ => Ok VNull) UtilityPayment.resource UtilityPaymentLog
             Get UtilityPayment.get [] eq_refl (or_introl eq_refl) Hopts).
  reflexivity.
Defined.
